(** * prometheus_fastapi_instrumentator.metrics

    A shallow embedding of [src/prometheus_fastapi_instrumentator/metrics.py]:
    the label-set resolver [_build_label_attribute_names], the four single
    metric factories ([latency], [request_size], [response_size],
    [combined_size]) and the composite factory [full], together with the
    closures they return.

    Python exceptions are values of [exn]; code that can raise and that
    touches the process-wide metrics registry runs in the monad [M], which
    threads the process state and keeps every write made before an exception
    was raised, as Python does.  The process state is the registry of
    collectors, keyed by metric name, and the log of the writes the closures
    have made on them; a closure holds the collectors it was built with. *)

From Stdlib Require Import ZArith Ascii String List SpecFloat Lia.
From stdpp Require Import gmap strings list fin_maps.
Import ListNotations.

Local Open Scope string_scope.
Local Open Scope Z_scope.
Local Open Scope list_scope.

(** ** Python values used by the module *)

(** A Python number: an [int], or a [float] as an IEEE 754 binary64 datum. *)
Inductive number :=
| NInt (z : Z)
| NFloat (f : spec_float).

(** [float("inf")]. *)
Definition float_inf : number := NFloat (S754_infinity false).

(** [x != float("inf")]: an [int] never equals infinity; two floats are
    compared as IEEE 754 does (a NaN differs from everything). *)
Definition ne_float_inf (x : number) : bool :=
  match x with
  | NInt _ => true
  | NFloat f => negb (SFeqb f (S754_infinity false))
  end.

Inductive value_error :=
| InvalidLiteral (s : string)          (* int(): invalid literal for base 10 *)
| DuplicatedTimeseries (name : string) (* registry: name already registered *)
| NegativeIncrement                    (* Counter.inc with a negative amount *)
| NoLabelNames                         (* .labels() on a metric without labels *)
| IncorrectLabelCount                  (* .labels() with the wrong arity *)
| MissingLabelValues.                  (* write on a labelled parent metric *)

Inductive exn :=
| IndexError                           (* tuple index out of range *)
| AttributeError (attr : string)       (* object has no such attribute *)
| TypeError                            (* int() argument of a wrong type *)
| ValueError (why : value_error).

Inductive result (A : Type) :=
| Ok (a : A)
| Raise (e : exn).
Arguments Ok {A} a.
Arguments Raise {A} e.

(** ** The builtin [int] on strings *)

(** [int(s)] in base 10: white space around the numeral is dropped, one
    sign may come first, and the digits may be grouped by single
    underscores.  The number of digits is not bounded. *)
Module PyInt.

Definition code (c : ascii) : N := N_of_ascii c.

(** White space skipped around a numeral.  Header values are Latin-1
    decoded, one character per byte. *)
Definition is_space (c : ascii) : bool :=
  let n := code c in
  (((9 <=? n) && (n <=? 13)) || (n =? 32) || (n =? 133) || (n =? 160))%N.

Definition is_digit (c : ascii) : bool :=
  let n := code c in ((48 <=? n) && (n <=? 57))%N.

Definition digit_value (c : ascii) : Z := Z.of_N (code c) - 48.

Fixpoint lstrip (s : string) : string :=
  match s with
  | String c s' => if is_space c then lstrip s' else s
  | EmptyString => EmptyString
  end.

Fixpoint rev_onto (acc s : string) : string :=
  match s with
  | String c s' => rev_onto (String c acc) s'
  | EmptyString => acc
  end.

Definition reverse (s : string) : string := rev_onto EmptyString s.

Definition strip (s : string) : string :=
  reverse (lstrip (reverse (lstrip s))).

(** Digits, with single underscores allowed between two digits. *)
Fixpoint digits (acc : Z) (after_underscore : bool) (s : string) : option Z :=
  match s with
  | EmptyString => if after_underscore then None else Some acc
  | String c s' =>
      if is_digit c then digits (10 * acc + digit_value c) false s'
      else if Ascii.eqb c "_"
           then if after_underscore then None else digits acc true s'
           else None
  end.

Definition unsigned (s : string) : option Z :=
  match s with
  | String c _ => if is_digit c then digits 0 false s else None
  | EmptyString => None
  end.

Definition signed (s : string) : option Z :=
  match s with
  | String "+" s' => unsigned s'
  | String "-" s' => Z.opp <$> unsigned s'
  | _ => unsigned s
  end.

(** [int(s)] for a string [s]: [None] stands for the [ValueError]. *)
Definition parse (s : string) : option Z := signed (strip s).

End PyInt.

(** [int(s)]. *)
Definition int_of_str (s : string) : result Z :=
  match PyInt.parse s with
  | Some z => Ok z
  | None => Raise (ValueError (InvalidLiteral s))
  end.

(** Truthiness of the result of [headers.get(key, None)]: [None] and the
    empty string are false, every other string is true. *)
Definition truthy (v : option string) : bool :=
  match v with
  | Some EmptyString => false
  | Some _ => true
  | None => false
  end.

(** ** Requests, responses and [Info] *)

(** The header list of a request or response: (name, value) pairs in wire
    order, names kept in lower case. *)
Definition Headers := list (string * string).

Definition lower_ascii (c : ascii) : ascii :=
  let n := N_of_ascii c in
  if ((65 <=? n) && (n <=? 90))%N then ascii_of_N (n + 32) else c.

Fixpoint lower (s : string) : string :=
  match s with
  | String c s' => String (lower_ascii c) (lower s')
  | EmptyString => EmptyString
  end.

(** [headers.get(key, None)]: the value of the first header whose name is
    [key] up to letter case. *)
Fixpoint headers_find (k : string) (h : Headers) : option string :=
  match h with
  | [] => None
  | (key, v) :: h' => if String.eqb key k then Some v else headers_find k h'
  end.

Definition headers_get (h : Headers) (key : string) : option string :=
  headers_find (lower key) h.

Record Request := { request_headers : Headers }.
Record Response := { response_headers : Headers }.

Record Info := {
  request : Request;
  response : option Response;
  method : string;
  modified_handler : string;
  modified_status : string;
  modified_duration : spec_float;
}.

(** The values [getattr(info, name)] can return. *)
Inductive pyobj :=
| OStr (s : string)
| OFloat (f : spec_float)
| ORequest (r : Request)
| OResponse (r : option Response).

Definition getattr (info : Info) (name : string) : result pyobj :=
  if String.eqb name "request" then Ok (ORequest (request info))
  else if String.eqb name "response" then Ok (OResponse (response info))
  else if String.eqb name "method" then Ok (OStr (method info))
  else if String.eqb name "modified_handler" then Ok (OStr (modified_handler info))
  else if String.eqb name "modified_status" then Ok (OStr (modified_status info))
  else if String.eqb name "modified_duration" then Ok (OFloat (modified_duration info))
  else Raise (AttributeError name).

(** [info.response.headers]: fails on [None]. *)
Definition response_headers_of (info : Info) : result Headers :=
  match response info with
  | Some r => Ok (response_headers r)
  | None => Raise (AttributeError "headers")
  end.

(** ** The metrics client *)

Inductive collector_kind := KCounter | KHistogram | KSummary.

(** A collector object as its constructor arguments fix it.  [upper_bounds]
    is the [buckets] tuple handed to a histogram and is empty for the other
    kinds. *)
Record collector := {
  kind : collector_kind;
  name : string;
  documentation : string;
  labelnames : list string;
  upper_bounds : list number;
}.

(** One write on a collector: the collector's name, the label values of the
    child written to (none for an unlabelled collector) and the amount. *)
Record write := {
  target : string;
  labelvalues : list pyobj;
  amount : number;
}.

(** The process state: the default registry, and every write made so far,
    oldest first. *)
Record state := {
  registry : gmap string collector;
  writes : list write;
}.

Definition empty_state : state := {| registry := ∅; writes := [] |}.

Definition M (A : Type) : Type := state -> state * result A.

Definition ret {A} (a : A) : M A := fun st => (st, Ok a).

Definition raise {A} (e : exn) : M A := fun st => (st, Raise e).

Definition bind {A B} (m : M A) (k : A -> M B) : M B :=
  fun st =>
    match m st with
    | (st', Ok a) => k a st'
    | (st', Raise e) => (st', Raise e)
    end.

Definition lift {A} (r : result A) : M A := fun st => (st, r).

Notation "'let*' x := m 'in' k" := (bind m (fun x => k))
  (at level 10, x name, m at level 100, k at level 200).
Notation "m ;;; k" := (bind m (fun _ => k))
  (at level 100, k at level 200, right associativity).

(** Modelled from the spec: the metrics client library
    ([prometheus_client]), of which the module only imports [Histogram],
    [Summary] and [Counter].  A collector is created from a name, a
    documentation string, optional label names and optional bucket
    boundaries; it must be unique by name within the process, and
    registering a second collector under a registered name fails at
    construction time.  Nothing else is checked at construction. *)
Definition register (c : collector) : M collector :=
  fun st =>
    match registry st !! name c with
    | Some _ => (st, Raise (ValueError (DuplicatedTimeseries (name c))))
    | None =>
        ({| registry := <[name c := c]> (registry st); writes := writes st |},
         Ok c)
    end.

Definition Histogram (metric_name metric_doc : string)
    (label_names : list string) (bounds : list number) : M collector :=
  register {| kind := KHistogram; name := metric_name;
              documentation := metric_doc; labelnames := label_names;
              upper_bounds := bounds |}.

Definition Summary (metric_name metric_doc : string)
    (label_names : list string) : M collector :=
  register {| kind := KSummary; name := metric_name;
              documentation := metric_doc; labelnames := label_names;
              upper_bounds := [] |}.

Definition Counter (metric_name metric_doc : string) : M collector :=
  register {| kind := KCounter; name := metric_name;
              documentation := metric_doc; labelnames := [];
              upper_bounds := [] |}.

(** The state once the write [w] has been made. *)
Definition recorded (st : state) (w : write) : state :=
  {| registry := registry st; writes := writes st ++ [w] |}.

Definition record_write (c : collector) (lv : list pyobj) (a : number) : M unit :=
  fun st =>
    (recorded st {| target := name c; labelvalues := lv; amount := a |}, Ok tt).

Definition is_nil {A} (l : list A) : bool :=
  match l with [] => true | _ => false end.

(** The child of a labelled collector that [labels(...)] selects. *)
Record child := {
  parent : collector;
  child_labelvalues : list pyobj;
}.

(** Modelled from the spec: the [labels(...).observe(value)] contract of a
    labelled collector.  As in the client library, [labels] is refused on a
    collector without label names and wants as many label values as the
    collector has label names. *)
Definition labels (c : collector) (lv : list pyobj) : M child :=
  if is_nil (labelnames c) then raise (ValueError NoLabelNames)
  else if negb (length lv =? length (labelnames c))%nat
       then raise (ValueError IncorrectLabelCount)
       else ret {| parent := c; child_labelvalues := lv |}.

Definition child_observe (ch : child) (a : number) : M unit :=
  record_write (parent ch) (child_labelvalues ch) a.

(** Modelled from the spec: [observe(value)] on an unlabelled collector; a
    labelled collector can only be written through [labels]. *)
Definition observe (c : collector) (a : number) : M unit :=
  if is_nil (labelnames c) then record_write c [] a
  else raise (ValueError MissingLabelValues).

(** Modelled from the spec: [inc(value)] on an unlabelled counter.  As in
    the client library a counter refuses a negative amount. *)
Definition inc (c : collector) (a : Z) : M unit :=
  if is_nil (labelnames c)
  then if a <? 0 then raise (ValueError NegativeIncrement)
       else record_write c [] (NInt a)
  else raise (ValueError MissingLabelValues).

(** The writes a collector has received, oldest first. *)
Definition samples (metric : string) (st : state) : list write :=
  filter (fun w => target w = metric) (writes st).

Definition int_amount (w : write) : Z :=
  match amount w with NInt z => z | NFloat _ => 0 end.

(** The value of a counter: the sum of its increments. *)
Definition counter_value (metric : string) (st : state) : Z :=
  foldr (fun w acc => int_amount w + acc) 0 (samples metric st).

(** ** The label-set resolver *)

Definition _build_label_attribute_names
    (should_include_handler should_include_method should_include_status : bool)
    : list string * list string :=
  let label_names : list string := [] in
  let info_attribute_names : list string := [] in
  let '(label_names, info_attribute_names) :=
    if should_include_handler
    then (label_names ++ ["handler"], info_attribute_names ++ ["modified_handler"])%list
    else (label_names, info_attribute_names) in
  let '(label_names, info_attribute_names) :=
    if should_include_method
    then (label_names ++ ["method"], info_attribute_names ++ ["method"])%list
    else (label_names, info_attribute_names) in
  let '(label_names, info_attribute_names) :=
    if should_include_status
    then (label_names ++ ["status"], info_attribute_names ++ ["modified_status"])%list
    else (label_names, info_attribute_names) in
  (label_names, info_attribute_names).


(** ** Helpers shared by the factories *)

(** [t[-1]] on a tuple. *)
Definition tuple_last (t : list number) : result number :=
  match last t with
  | Some x => Ok x
  | None => Raise IndexError
  end.

(** The loop that reads the configured attributes off [info]:
    [for attribute_name in info_attribute_names:
       label_values.append(getattr(info, attribute_name))]. *)
Fixpoint collect_label_values (info : Info) (info_attribute_names : list string)
    : result (list pyobj) :=
  match info_attribute_names with
  | [] => Ok []
  | attribute_name :: rest =>
      match getattr info attribute_name with
      | Ok v =>
          match collect_label_values info rest with
          | Ok vs => Ok (v :: vs)
          | Raise e => Raise e
          end
      | Raise e => Raise e
      end
  end.

(** [int(v)] where [v] came from [headers.get(key, None)]. *)
Definition int_of_header (v : option string) : result Z :=
  match v with
  | Some s => int_of_str s
  | None => Raise TypeError
  end.

(** [int(headers.get(key, 0))]. *)
Definition int_of_header_or_zero (v : option string) : result Z :=
  match v with
  | Some s => int_of_str s
  | None => Ok 0
  end.

(** The branch on [label_names] that ends every closure of the single
    metric factories:
    [if label_names: ...; METRIC.labels(...).observe(value)
     else: METRIC.observe(value)], where [labels] receives the collected
    label values.
    [value] is the argument expression of [observe], evaluated after
    [labels] has selected the child. *)
Definition observe_labelled_or_bare (METRIC : collector)
    (label_names info_attribute_names : list string)
    (info : Info) (value : result number) : M unit :=
  if negb (is_nil label_names) then
    let* label_values := lift (collect_label_values info info_attribute_names) in
    let* series := labels METRIC label_values in
    let* v := lift value in
    child_observe series v
  else
    let* v := lift value in
    observe METRIC v.

Definition int_number (r : result Z) : result number :=
  match r with
  | Ok z => Ok (NInt z)
  | Raise e => Raise e
  end.

(** ** [latency] *)

Definition latency_instrumentation (METRIC : collector)
    (label_names info_attribute_names : list string) (info : Info) : M unit :=
  observe_labelled_or_bare METRIC label_names info_attribute_names info
    (Ok (NFloat (modified_duration info))).

Definition latency (metric_name metric_doc : string)
    (should_include_handler should_include_method should_include_status : bool)
    (buckets : list number) : M (Info -> M unit) :=
  let* final := lift (tuple_last buckets) in
  let buckets :=
    if ne_float_inf final then (buckets ++ [float_inf])%list else buckets in
  let '(label_names, info_attribute_names) :=
    _build_label_attribute_names
      should_include_handler should_include_method should_include_status in
  let* METRIC :=
    (if negb (is_nil label_names)
     then Histogram metric_name metric_doc label_names buckets
     else Histogram metric_name metric_doc [] buckets) in
  ret (latency_instrumentation METRIC label_names info_attribute_names).

(** ** [request_size] *)

Definition request_size_instrumentation (METRIC : collector)
    (label_names info_attribute_names : list string) (info : Info) : M unit :=
  let content_length :=
    headers_get (request_headers (request info)) "Content-Length" in
  match content_length with
  | Some _ =>
      observe_labelled_or_bare METRIC label_names info_attribute_names info
        (int_number (int_of_header content_length))
  | None => ret tt
  end.

(** The collector the three size factories create. *)
Definition size_summary (metric_name metric_doc : string)
    (label_names : list string) : M collector :=
  if negb (is_nil label_names)
  then Summary metric_name metric_doc label_names
  else Summary metric_name metric_doc [].

Definition request_size (metric_name metric_doc : string)
    (should_include_handler should_include_method should_include_status : bool)
    : M (Info -> M unit) :=
  let '(label_names, info_attribute_names) :=
    _build_label_attribute_names
      should_include_handler should_include_method should_include_status in
  let* METRIC := size_summary metric_name metric_doc label_names in
  ret (request_size_instrumentation METRIC label_names info_attribute_names).

(** ** [response_size] *)

Definition response_size_instrumentation (METRIC : collector)
    (label_names info_attribute_names : list string) (info : Info) : M unit :=
  let* headers := lift (response_headers_of info) in
  let content_length := headers_get headers "Content-Length" in
  match content_length with
  | Some _ =>
      observe_labelled_or_bare METRIC label_names info_attribute_names info
        (int_number (int_of_header content_length))
  | None => ret tt
  end.

Definition response_size (metric_name metric_doc : string)
    (should_include_handler should_include_method should_include_status : bool)
    : M (Info -> M unit) :=
  let '(label_names, info_attribute_names) :=
    _build_label_attribute_names
      should_include_handler should_include_method should_include_status in
  let* METRIC := size_summary metric_name metric_doc label_names in
  ret (response_size_instrumentation METRIC label_names info_attribute_names).

(** ** [combined_size] *)

(** The three-way choice of [content_length]; [None] is Python's [None]. *)
Definition combined_content_length (request_cl response_cl : option string)
    : result (option Z) :=
  if truthy request_cl && truthy response_cl then
    match int_of_header request_cl with
    | Ok a =>
        match int_of_header response_cl with
        | Ok b => Ok (Some (a + b))
        | Raise e => Raise e
        end
    | Raise e => Raise e
    end
  else if truthy request_cl then
    match int_of_header request_cl with
    | Ok a => Ok (Some a)
    | Raise e => Raise e
    end
  else if truthy response_cl then
    match int_of_header response_cl with
    | Ok b => Ok (Some b)
    | Raise e => Raise e
    end
  else Ok None.

Definition combined_size_instrumentation (METRIC : collector)
    (label_names info_attribute_names : list string) (info : Info) : M unit :=
  let request_cl :=
    headers_get (request_headers (request info)) "Content-Length" in
  let* headers := lift (response_headers_of info) in
  let response_cl := headers_get headers "Content-Length" in
  let* content_length := lift (combined_content_length request_cl response_cl) in
  match content_length with
  | Some n =>
      observe_labelled_or_bare METRIC label_names info_attribute_names info
        (Ok (NInt n))
  | None => ret tt
  end.

Definition combined_size (metric_name metric_doc : string)
    (should_include_handler should_include_method should_include_status : bool)
    : M (Info -> M unit) :=
  let '(label_names, info_attribute_names) :=
    _build_label_attribute_names
      should_include_handler should_include_method should_include_status in
  let* METRIC := size_summary metric_name metric_doc label_names in
  ret (combined_size_instrumentation METRIC label_names info_attribute_names).

(** ** [full] *)

Definition float_of (m : positive) (e : Z) : number :=
  NFloat (S754_finite false m e).

(** The default [latency_highr_buckets]:
    (.01, .025, .05, .075, .1, .25, .5, .75, 1, 1.5, 2, 2.5, 3, 3.5, 4, 4.5,
     5, 7.5, 10.), each float as its binary64 value. *)
Definition default_latency_highr_buckets : list number :=
  [ float_of 5764607523034235 (-59); float_of 7205759403792794 (-58);
    float_of 7205759403792794 (-57); float_of 5404319552844595 (-56);
    float_of 7205759403792794 (-56); float_of 4503599627370496 (-54);
    float_of 4503599627370496 (-53); float_of 6755399441055744 (-53);
    NInt 1; float_of 6755399441055744 (-52);
    NInt 2; float_of 5629499534213120 (-51);
    NInt 3; float_of 7881299347898368 (-51);
    NInt 4; float_of 5066549580791808 (-50);
    NInt 5; float_of 8444249301319680 (-50);
    float_of 5629499534213120 (-49) ].

(** The default [latency_lowr_buckets]: (0.1, 0.5, 1). *)
Definition default_latency_lowr_buckets : list number :=
  [ float_of 7205759403792794 (-56); float_of 4503599627370496 (-53); NInt 1 ].

Definition full_instrumentation
    (TOTAL IN_SIZE OUT_SIZE LATENCY_HIGHR LATENCY_LOWR : collector)
    (info : Info) : M unit :=
  inc TOTAL 1 ;;;
  let* n_in :=
    lift (int_of_header_or_zero
            (headers_get (request_headers (request info)) "Content-Length")) in
  inc IN_SIZE n_in ;;;
  let* headers := lift (response_headers_of info) in
  let* n_out :=
    lift (int_of_header_or_zero (headers_get headers "Content-Length")) in
  inc OUT_SIZE n_out ;;;
  observe LATENCY_HIGHR (NFloat (modified_duration info)) ;;;
  let* series :=
    labels LATENCY_LOWR
      [OStr (method info); OStr (modified_status info);
       OStr (modified_handler info)] in
  child_observe series (NFloat (modified_duration info)).

Definition full (latency_highr_buckets latency_lowr_buckets : list number)
    : M (Info -> M unit) :=
  let* final_highr := lift (tuple_last latency_highr_buckets) in
  let latency_highr_buckets :=
    if ne_float_inf final_highr
    then (latency_highr_buckets ++ [float_inf])%list
    else latency_highr_buckets in
  let* final_lowr := lift (tuple_last latency_lowr_buckets) in
  let latency_lowr_buckets :=
    if ne_float_inf final_lowr
    then (latency_lowr_buckets ++ [float_inf])%list
    else latency_lowr_buckets in
  let* TOTAL :=
    Counter "http_requests_total"
            "Total number of requests with no API specific labels." in
  let* IN_SIZE :=
    Counter "http_in_bytes_total" "Content length of incoming requests." in
  let* OUT_SIZE :=
    Counter "http_out_bytes_total" "Content length of incoming requests." in
  let* LATENCY_HIGHR :=
    Histogram "http_highr_request_duration_seconds"
              "Latency with many buckets but no API specific labels."
              [] latency_highr_buckets in
  let* LATENCY_LOWR :=
    Histogram "http_lowr_request_duration_seconds"
              "Latency with only few buckets."
              ["method"; "status"; "handler"] latency_lowr_buckets in
  ret (full_instrumentation TOTAL IN_SIZE OUT_SIZE LATENCY_HIGHR LATENCY_LOWR).

(** ** Vocabulary of the statements *)

(** The request's [Content-Length], if the header is there. *)
Definition request_cl (info : Info) : option string :=
  headers_get (request_headers (request info)) "Content-Length".

(** The response's [Content-Length]; there is none without a response. *)
Definition response_cl (info : Info) : option string :=
  match response info with
  | Some r => headers_get (response_headers r) "Content-Length"
  | None => None
  end.

(** The label values a closure configured with the three flags reads. *)
Definition configured_label_values
    (should_include_handler should_include_method should_include_status : bool)
    (info : Info) : list pyobj :=
  (if should_include_handler then [OStr (modified_handler info)] else []) ++
  (if should_include_method then [OStr (method info)] else []) ++
  (if should_include_status then [OStr (modified_status info)] else []).

(** The collectors the single metric factories create. *)
Definition summary_collector (metric_name metric_doc : string)
    (h m s : bool) : collector :=
  {| kind := KSummary; name := metric_name; documentation := metric_doc;
     labelnames := fst (_build_label_attribute_names h m s);
     upper_bounds := [] |}.

Definition histogram_collector (metric_name metric_doc : string)
    (h m s : bool) (bounds : list number) : collector :=
  {| kind := KHistogram; name := metric_name; documentation := metric_doc;
     labelnames := fst (_build_label_attribute_names h m s);
     upper_bounds := bounds |}.

(** A bucket tuple once the factory has closed it with infinity. *)
Definition closed_buckets (b : list number) : list number :=
  match last b with
  | Some x => if ne_float_inf x then b ++ [float_inf] else b
  | None => b
  end.

Definition registered (metric : string) (st : state) : Prop :=
  is_Some (registry st !! metric).

(** The five names of the composite factory, in registration order. *)
Definition full_names : list string :=
  [ "http_requests_total"; "http_in_bytes_total"; "http_out_bytes_total";
    "http_highr_request_duration_seconds";
    "http_lowr_request_duration_seconds" ].

(** The state a factory call leaves, and the closure it returns (a closure
    that re-raises when the call failed). *)
Definition state_after {A} (call : M A) (st : state) : state := fst (call st).

Definition closure_of (call : M (Info -> M unit)) (st : state) : Info -> M unit :=
  match snd (call st) with
  | Ok f => f
  | Raise e => fun _ => raise e
  end.

(** An [Info] with another request (response) header list. *)
Definition with_request_headers (info : Info) (h : Headers) : Info :=
  {| request := {| request_headers := h |};
     response := response info;
     method := method info;
     modified_handler := modified_handler info;
     modified_status := modified_status info;
     modified_duration := modified_duration info |}.

Definition with_response_headers (info : Info) (h : Headers) : Info :=
  {| request := request info;
     response := Some {| response_headers := h |};
     method := method info;
     modified_handler := modified_handler info;
     modified_status := modified_status info;
     modified_duration := modified_duration info |}.

(** ** Sample requests *)

(** A GET on [/] answered 2xx after 0.3 s, with the given header lists. *)
Definition sample_info (rq : Headers) (rs : option Headers) : Info :=
  {| request := {| request_headers := rq |};
     response := (fun h => {| response_headers := h |}) <$> rs;
     method := "GET";
     modified_handler := "/";
     modified_status := "2xx";
     modified_duration := S754_finite false 5404319552844595 (-54) |}.

Definition content_length (v : string) : Headers := [("content-length", v)].

(** ** The collectors and writes of [full] *)

Definition total_counter : collector :=
  {| kind := KCounter; name := "http_requests_total";
     documentation := "Total number of requests with no API specific labels.";
     labelnames := []; upper_bounds := [] |}.

Definition in_size_counter : collector :=
  {| kind := KCounter; name := "http_in_bytes_total";
     documentation := "Content length of incoming requests.";
     labelnames := []; upper_bounds := [] |}.

Definition out_size_counter : collector :=
  {| kind := KCounter; name := "http_out_bytes_total";
     documentation := "Content length of incoming requests.";
     labelnames := []; upper_bounds := [] |}.

Definition highr_histogram (bounds : list number) : collector :=
  {| kind := KHistogram; name := "http_highr_request_duration_seconds";
     documentation := "Latency with many buckets but no API specific labels.";
     labelnames := []; upper_bounds := bounds |}.

Definition lowr_histogram (bounds : list number) : collector :=
  {| kind := KHistogram; name := "http_lowr_request_duration_seconds";
     documentation := "Latency with only few buckets.";
     labelnames := ["method"; "status"; "handler"]; upper_bounds := bounds |}.

(** The registry once every collector of a list went in, first to last. *)
Definition registered_all (cs : list collector) (r : gmap string collector)
    : gmap string collector :=
  foldl (fun acc c => <[name c := c]> acc) r cs.

Definition full_collectors (hb lb : list number) : list collector :=
  [ total_counter; in_size_counter; out_size_counter;
    highr_histogram (closed_buckets hb); lowr_histogram (closed_buckets lb) ].

Definition full_closure (hb lb : list number) : Info -> M unit :=
  full_instrumentation total_counter in_size_counter out_size_counter
    (highr_histogram (closed_buckets hb)) (lowr_histogram (closed_buckets lb)).

(** The counter writes of the [full] closure. *)
Definition inc_write (c : collector) (n : Z) : write :=
  {| target := name c; labelvalues := []; amount := NInt n |}.

Definition highr_write (hb : list number) (info : Info) : write :=
  {| target := name (highr_histogram (closed_buckets hb));
     labelvalues := [];
     amount := NFloat (modified_duration info) |}.

Definition lowr_write (lb : list number) (info : Info) : write :=
  {| target := name (lowr_histogram (closed_buckets lb));
     labelvalues := [OStr (method info); OStr (modified_status info);
                     OStr (modified_handler info)];
     amount := NFloat (modified_duration info) |}.

(** Registering collectors one after the other, as the body of [full] does:
    the first name that is taken stops the sequence, and what went in
    before it stays in. *)
Fixpoint register_seq (cs : list collector) (st : state)
    : state * option string :=
  match cs with
  | [] => (st, None)
  | c :: cs' =>
      match registry st !! name c with
      | Some _ => (st, Some (name c))
      | None =>
          register_seq cs'
            {| registry := <[name c := c]> (registry st); writes := writes st |}
      end
  end.

(** [b'] is [b] closed with positive infinity: it ends in infinity, it is
    [b] itself when [b] already ended in infinity, and [b] followed by
    infinity otherwise. *)
Definition closes (b b' : list number) : Prop :=
  last b' = Some float_inf /\
  (last b = Some float_inf -> b' = b) /\
  (last b <> Some float_inf -> b' = b ++ [float_inf]).

(** ** Factory calls *)

(** A call of one of the five factories, with its arguments. *)
Inductive factory_call :=
| CallLatency (metric_name metric_doc : string) (h m s : bool)
              (buckets : list number)
| CallRequestSize (metric_name metric_doc : string) (h m s : bool)
| CallResponseSize (metric_name metric_doc : string) (h m s : bool)
| CallCombinedSize (metric_name metric_doc : string) (h m s : bool)
| CallFull (latency_highr_buckets latency_lowr_buckets : list number).

Definition run_call (c : factory_call) : M (Info -> M unit) :=
  match c with
  | CallLatency n d h m s b => latency n d h m s b
  | CallRequestSize n d h m s => request_size n d h m s
  | CallResponseSize n d h m s => response_size n d h m s
  | CallCombinedSize n d h m s => combined_size n d h m s
  | CallFull hb lb => full hb lb
  end.

(** The collector names a call constructs, in order. *)
Definition call_names (c : factory_call) : list string :=
  match c with
  | CallLatency n _ _ _ _ _ => [n]
  | CallRequestSize n _ _ _ _ => [n]
  | CallResponseSize n _ _ _ _ => [n]
  | CallCombinedSize n _ _ _ _ => [n]
  | CallFull _ _ => full_names
  end.

(** The bucket tuples of the call can be indexed at [-1]. *)
Definition call_buckets_ok (c : factory_call) : Prop :=
  match c with
  | CallLatency _ _ _ _ _ b => b <> []
  | CallFull hb lb => hb <> [] /\ lb <> []
  | _ => True
  end.

Definition single_metric (c : factory_call) : bool :=
  match c with
  | CallFull _ _ => false
  | _ => true
  end.

(** ** Vocabulary of the further properties *)

(** An [Info] with another response, or with none. *)
Definition with_response (info : Info) (r : option Response) : Info :=
  {| request := request info;
     response := r;
     method := method info;
     modified_handler := modified_handler info;
     modified_status := modified_status info;
     modified_duration := modified_duration info |}.

(** The state once the writes [ws] have been made, first to last. *)
Definition recorded_all (st : state) (ws : list write) : state :=
  {| registry := registry st; writes := writes st ++ ws |}.

(** The state after the caller has invoked a closure once per [Info], in
    order.  An exception surfaces to the caller, and the next invocation
    starts from the state the failed one left. *)
Definition invoke_all (f : Info -> M unit) (infos : list Info) (st : state)
    : state :=
  foldl (fun acc info => fst (f info acc)) st infos.

(** The number of writes a collector has received. *)
Definition sample_count (metric : string) (st : state) : nat :=
  length (samples metric st).

(** The five writes of a complete run of the [full] closure, in order. *)
Definition full_writes (hb lb : list number) (info : Info) (n_in n_out : Z)
    : list write :=
  [ inc_write total_counter 1; inc_write in_size_counter n_in;
    inc_write out_size_counter n_out; highr_write hb info;
    lowr_write lb info ].

(** The names of the bare calls of the module, every argument at its
    default. *)
Definition default_latency_name : string := "http_request_duration_seconds".
Definition default_request_size_name : string := "http_request_size_bytes".
Definition default_response_size_name : string := "http_response_size_bytes".
Definition default_combined_size_name : string := "http_combined_size_bytes".

(** The kind and the label names of the collector a single-metric call
    constructs. *)
Definition call_kind (c : factory_call) : collector_kind :=
  match c with
  | CallLatency _ _ _ _ _ _ => KHistogram
  | _ => KSummary
  end.

Definition call_label_names (c : factory_call) : list string :=
  match c with
  | CallLatency _ _ h m s _
  | CallRequestSize _ _ h m s
  | CallResponseSize _ _ h m s
  | CallCombinedSize _ _ h m s => fst (_build_label_attribute_names h m s)
  | CallFull _ _ => []
  end.

(** The write of the [latency] closure for one [Info]. *)
Definition latency_write (metric_name : string) (h m s : bool) (info : Info)
    : write :=
  {| target := metric_name;
     labelvalues := configured_label_values h m s info;
     amount := NFloat (modified_duration info) |}.

(** The length a header announces to the [full] closure: the numeral, or 0
    without the header. *)
Definition announced (v : option string) : Z :=
  match int_of_header_or_zero v with
  | Ok n => n
  | Raise _ => 0
  end.

(** An [Info] the [full] closure runs through on: a response is there, and
    each [Content-Length] is absent or a non-negative numeral. *)
Definition well_announced (info : Info) : Prop :=
  response info <> None /\
  (exists n, int_of_header_or_zero (request_cl info) = Ok n /\ 0 <= n) /\
  (exists n, int_of_header_or_zero (response_cl info) = Ok n /\ 0 <= n).

Definition total_of (g : Info -> Z) (infos : list Info) : Z :=
  foldr (fun info acc => g info + acc) 0 infos.

(** The three ways an invocation of a single-metric closure can end. *)
Definition single_outcome (metric_name : string) (h m s : bool) (info : Info)
    (st : state) (out : state * result unit) : Prop :=
  out = (st, Ok tt) \/
  (exists e, out = (st, Raise e)) \/
  (exists v,
      out = (recorded st {| target := metric_name;
                            labelvalues := configured_label_values h m s info;
                            amount := v |}, Ok tt)).

(** How far an invocation of the [full] closure gets: it stops after the
    request counter, after the incoming-bytes counter, or runs through. *)
Inductive full_progress (hb lb : list number) (info : Info)
    : list write -> result unit -> Prop :=
| StopAfterTotal (e : exn) :
    full_progress hb lb info [inc_write total_counter 1] (Raise e)
| StopAfterIn (n_in : Z) (e : exn) :
    0 <= n_in ->
    full_progress hb lb info
      [inc_write total_counter 1; inc_write in_size_counter n_in] (Raise e)
| RunThrough (n_in n_out : Z) :
    0 <= n_in -> 0 <= n_out ->
    full_progress hb lb info (full_writes hb lb info n_in n_out) (Ok tt).

(** The five sample counts after a run, against those before it. *)
Definition counts_grew (st st' : state) (n k_in k_out : nat) : Prop :=
  sample_count "http_requests_total" st' =
    (sample_count "http_requests_total" st + n)%nat /\
  sample_count "http_in_bytes_total" st' =
    (sample_count "http_in_bytes_total" st + k_in)%nat /\
  sample_count "http_out_bytes_total" st' =
    (sample_count "http_out_bytes_total" st + k_out)%nat /\
  sample_count "http_highr_request_duration_seconds" st' =
    (sample_count "http_highr_request_duration_seconds" st + k_out)%nat /\
  sample_count "http_lowr_request_duration_seconds" st' =
    (sample_count "http_lowr_request_duration_seconds" st + k_out)%nat.

(** The amount an invocation adds to the sum of a collector's samples. *)
Definition added (metric : string) (st : state) (out : state * result unit)
    : Z :=
  counter_value metric (fst out) - counter_value metric st.



(** * Properties *)

(** ** The builtin [int] and the header lookup on examples *)

Example parse_plain : PyInt.parse "100" = Some 100.
Proof. reflexivity. Qed.

Example parse_padded_signed : PyInt.parse " -1_0 " = Some (-10).
Proof. reflexivity. Qed.

Example parse_empty : PyInt.parse EmptyString = None.
Proof. reflexivity. Qed.

Example parse_double_underscore : PyInt.parse "1__0" = None.
Proof. reflexivity. Qed.

Example parse_letters : PyInt.parse "abc" = None.
Proof. reflexivity. Qed.

Example headers_get_case_insensitive :
  headers_get [("accept", "*/*"); ("content-length", "5")] "Content-Length"
  = Some "5".
Proof. reflexivity. Qed.

Example build_handler_status :
  _build_label_attribute_names true false true =
  (["handler"; "status"], ["modified_handler"; "modified_status"]).
Proof. reflexivity. Qed.

(** ** The monad and the metrics client *)

Lemma ne_float_inf_false (x : number) :
  ne_float_inf x = false <-> x = float_inf.
Proof.
  split.
  - destruct x as [z|f]; simpl; [discriminate|].
    destruct f as [sg|sg| |sg mant e]; try destruct sg; simpl; try discriminate.
    reflexivity.
  - intros ->. reflexivity.
Qed.

Lemma closed_buckets_last (b : list number) :
  b <> [] -> last (closed_buckets b) = Some float_inf.
Proof.
  intros Hb. unfold closed_buckets.
  destruct (last b) as [x|] eqn:Hl.
  - destruct (ne_float_inf x) eqn:Hx.
    + apply last_snoc.
    + apply ne_float_inf_false in Hx. congruence.
  - apply last_None in Hl. contradiction.
Qed.

Lemma samples_recorded (metric : string) (st : state) (w : write) :
  samples metric (recorded st w) =
  samples metric st ++ (if decide (target w = metric) then [w] else []).
Proof.
  unfold samples, recorded. simpl. rewrite filter_app. reflexivity.
Qed.

Lemma counter_value_app (l1 l2 : list write) :
  foldr (fun w acc => int_amount w + acc) 0 (l1 ++ l2) =
  foldr (fun w acc => int_amount w + acc) 0 l1 +
  foldr (fun w acc => int_amount w + acc) 0 l2.
Proof.
  induction l1 as [|w l1 IH]; simpl; [lia|]. rewrite IH. lia.
Qed.

Lemma counter_value_recorded (metric : string) (st : state) (w : write) :
  counter_value metric (recorded st w) =
  counter_value metric st + (if decide (target w = metric) then int_amount w else 0).
Proof.
  unfold counter_value. rewrite samples_recorded, counter_value_app.
  destruct (decide (target w = metric)); simpl; lia.
Qed.

Lemma size_summary_eq (metric_name metric_doc : string) (l : list string) :
  size_summary metric_name metric_doc l = Summary metric_name metric_doc l.
Proof. destruct l; reflexivity. Qed.

(** ** The shared tail of the closures *)

Lemma collect_configured (h m s : bool) (info : Info) :
  collect_label_values info (snd (_build_label_attribute_names h m s)) =
  Ok (configured_label_values h m s info).
Proof. destruct h, m, s; reflexivity. Qed.

Lemma observe_labelled_or_bare_ok (c : collector) (h m s : bool)
    (info : Info) (v : number) (st : state) :
  labelnames c = fst (_build_label_attribute_names h m s) ->
  observe_labelled_or_bare c
    (fst (_build_label_attribute_names h m s))
    (snd (_build_label_attribute_names h m s)) info (Ok v) st =
  (recorded st {| target := name c;
                  labelvalues := configured_label_values h m s info;
                  amount := v |}, Ok tt).
Proof.
  intros Hc. unfold observe_labelled_or_bare, labels, observe, bind, lift.
  rewrite collect_configured, Hc.
  destruct h, m, s; reflexivity.
Qed.

Lemma observe_labelled_or_bare_raise (c : collector) (h m s : bool)
    (info : Info) (e : exn) (st : state) :
  labelnames c = fst (_build_label_attribute_names h m s) ->
  observe_labelled_or_bare c
    (fst (_build_label_attribute_names h m s))
    (snd (_build_label_attribute_names h m s)) info (Raise e) st =
  (st, Raise e).
Proof.
  intros Hc. unfold observe_labelled_or_bare, labels, observe, bind, lift.
  rewrite collect_configured, Hc.
  destruct h, m, s; reflexivity.
Qed.

(** ** What a successful factory call returns *)

Lemma build_eta (h m s : bool) :
  _build_label_attribute_names h m s =
  (fst (_build_label_attribute_names h m s),
   snd (_build_label_attribute_names h m s)).
Proof. destruct h, m, s; reflexivity. Qed.

Section SizeFactories.

Variables (metric_name metric_doc : string) (h m s : bool).

Let C := summary_collector metric_name metric_doc h m s.
Let label_names := fst (_build_label_attribute_names h m s).
Let info_attribute_names := snd (_build_label_attribute_names h m s).

Lemma size_factory_run
    (body : collector -> list string -> list string -> Info -> M unit)
    (st : state) :
  (let '(label_names, info_attribute_names) :=
     _build_label_attribute_names h m s in
   let* METRIC := size_summary metric_name metric_doc label_names in
   ret (body METRIC label_names info_attribute_names)) st =
  match registry st !! metric_name with
  | Some _ => (st, Raise (ValueError (DuplicatedTimeseries metric_name)))
  | None =>
      ({| registry := <[metric_name := C]> (registry st);
          writes := writes st |},
       Ok (body C label_names info_attribute_names))
  end.
Proof.
  rewrite build_eta. unfold bind. rewrite size_summary_eq.
  unfold Summary, register. simpl.
  destruct (registry st !! metric_name); reflexivity.
Qed.

Lemma request_size_run (st : state) :
  request_size metric_name metric_doc h m s st =
  match registry st !! metric_name with
  | Some _ => (st, Raise (ValueError (DuplicatedTimeseries metric_name)))
  | None =>
      ({| registry := <[metric_name := C]> (registry st);
          writes := writes st |},
       Ok (request_size_instrumentation C label_names info_attribute_names))
  end.
Proof. apply (size_factory_run request_size_instrumentation). Qed.

Lemma response_size_run (st : state) :
  response_size metric_name metric_doc h m s st =
  match registry st !! metric_name with
  | Some _ => (st, Raise (ValueError (DuplicatedTimeseries metric_name)))
  | None =>
      ({| registry := <[metric_name := C]> (registry st);
          writes := writes st |},
       Ok (response_size_instrumentation C label_names info_attribute_names))
  end.
Proof. apply (size_factory_run response_size_instrumentation). Qed.

Lemma combined_size_run (st : state) :
  combined_size metric_name metric_doc h m s st =
  match registry st !! metric_name with
  | Some _ => (st, Raise (ValueError (DuplicatedTimeseries metric_name)))
  | None =>
      ({| registry := <[metric_name := C]> (registry st);
          writes := writes st |},
       Ok (combined_size_instrumentation C label_names info_attribute_names))
  end.
Proof. apply (size_factory_run combined_size_instrumentation). Qed.

End SizeFactories.

Lemma parse_truthy (v : string) (z : Z) :
  PyInt.parse v = Some z -> truthy (Some v) = true.
Proof. destruct v; [discriminate | reflexivity]. Qed.

Ltac factory_inv H :=
  first [ rewrite request_size_run in H
        | rewrite response_size_run in H
        | rewrite combined_size_run in H ];
  match type of H with
  | context [registry ?st !! ?n] =>
      let Hfresh := fresh "Hfresh" in
      destruct (registry st !! n) eqn:Hfresh; inversion H; subst; clear H
  end.

(** The closed form of the [combined_size] closure on an [Info] that has a
    response. *)
Lemma combined_size_instrumentation_run (c : collector) (h m s : bool)
    (info : Info) (r : Response) (st : state) :
  labelnames c = fst (_build_label_attribute_names h m s) ->
  response info = Some r ->
  combined_size_instrumentation c
    (fst (_build_label_attribute_names h m s))
    (snd (_build_label_attribute_names h m s)) info st =
  match combined_content_length (request_cl info) (response_cl info) with
  | Ok (Some n) =>
      (recorded st {| target := name c;
                      labelvalues := configured_label_values h m s info;
                      amount := NInt n |}, Ok tt)
  | Ok None => (st, Ok tt)
  | Raise e => (st, Raise e)
  end.
Proof.
  intros Hc Hr.
  unfold combined_size_instrumentation, request_cl, response_cl,
    response_headers_of, bind, lift.
  rewrite Hr.
  destruct (combined_content_length _ _) as [[n|]|e]; try reflexivity.
  now apply observe_labelled_or_bare_ok.
Qed.

(** ** The label-set resolver *)

(** C3: for each of the eight settings of the three flags,
    [_build_label_attribute_names] returns two lists of equal length; the
    label names are the enabled ones among "handler", "method", "status" in
    that order, and the attribute names are "modified_handler", "method",
    "modified_status" at the matching positions. *)
Theorem build_label_attribute_names_aligned (h m s : bool) :
  let label_names := fst (_build_label_attribute_names h m s) in
  let info_attribute_names := snd (_build_label_attribute_names h m s) in
  length label_names = length info_attribute_names /\
  combine label_names info_attribute_names =
    (if h then [("handler", "modified_handler")] else []) ++
    (if m then [("method", "method")] else []) ++
    (if s then [("status", "modified_status")] else []) /\
  label_names =
    (if h then ["handler"] else []) ++ (if m then ["method"] else []) ++
    (if s then ["status"] else []) /\
  info_attribute_names =
    (if h then ["modified_handler"] else []) ++
    (if m then ["method"] else []) ++
    (if s then ["modified_status"] else []).
Proof. destruct h, m, s; repeat split; reflexivity. Qed.

(** ** [combined_size] *)

(** C1, as the code has it: take an [Info] that has a response, and count a
    [Content-Length] header as present when its value is not the empty
    string.  With numerals as values, the [combined_size] closure records
    exactly one sample, the sum, when both headers are present; exactly
    one, the single value, when only one is; and nothing when neither
    is. *)
Theorem combined_size_three_way
    (metric_name metric_doc : string) (h m s : bool)
    (st0 st1 : state) (f : Info -> M unit) (info : Info) (st : state) :
  combined_size metric_name metric_doc h m s st0 = (st1, Ok f) ->
  response info <> None ->
  let sample n :=
    {| target := metric_name;
       labelvalues := configured_label_values h m s info;
       amount := NInt n |} in
  (forall vq vs a b,
      request_cl info = Some vq -> response_cl info = Some vs ->
      PyInt.parse vq = Some a -> PyInt.parse vs = Some b ->
      f info st = (recorded st (sample (a + b)), Ok tt)) /\
  (forall vq a,
      request_cl info = Some vq -> truthy (response_cl info) = false ->
      PyInt.parse vq = Some a ->
      f info st = (recorded st (sample a), Ok tt)) /\
  (forall vs b,
      truthy (request_cl info) = false -> response_cl info = Some vs ->
      PyInt.parse vs = Some b ->
      f info st = (recorded st (sample b), Ok tt)) /\
  (truthy (request_cl info) = false -> truthy (response_cl info) = false ->
   f info st = (st, Ok tt)).
Proof.
  intros Hf Hresp sample. factory_inv Hf.
  destruct (response info) as [r|] eqn:Hr; [clear Hresp | contradiction].
  repeat split.
  - intros vq vs a b Hq Hs Ha Hb.
    rewrite (combined_size_instrumentation_run _ h m s info r) by easy.
    rewrite Hq, Hs. unfold combined_content_length.
    rewrite (parse_truthy _ _ Ha), (parse_truthy _ _ Hb). simpl.
    unfold int_of_str. rewrite Ha, Hb. reflexivity.
  - intros vq a Hq Hs Ha.
    rewrite (combined_size_instrumentation_run _ h m s info r) by easy.
    rewrite Hq. unfold combined_content_length.
    rewrite (parse_truthy _ _ Ha), Hs. simpl.
    unfold int_of_str. rewrite Ha. reflexivity.
  - intros vs b Hq Hs Hb.
    rewrite (combined_size_instrumentation_run _ h m s info r) by easy.
    rewrite Hs. unfold combined_content_length.
    rewrite (parse_truthy _ _ Hb), Hq. simpl.
    unfold int_of_str. rewrite Hb. reflexivity.
  - intros Hq Hs.
    rewrite (combined_size_instrumentation_run _ h m s info r) by easy.
    unfold combined_content_length. rewrite Hq, Hs. reflexivity.
Qed.

(** The three cases on the closure built with the default name: 100 and 50
    give 150, 100 alone gives 100, no header gives nothing. *)
Lemma combined_size_three_way_witness :
  let call :=
    combined_size "http_combined_size_bytes"
                  "Content bytes of requests and responses." true true true in
  let st1 := state_after call empty_state in
  let f := closure_of call empty_state in
  let sample n :=
    {| target := "http_combined_size_bytes";
       labelvalues := [OStr "/"; OStr "GET"; OStr "2xx"];
       amount := NInt n |} in
  f (sample_info (content_length "100") (Some (content_length "50"))) st1 =
    (recorded st1 (sample 150), Ok tt) /\
  f (sample_info (content_length "100") (Some [])) st1 =
    (recorded st1 (sample 100), Ok tt) /\
  f (sample_info [] (Some [])) st1 = (st1, Ok tt).
Proof.
  intros call st1 f sample.
  assert (Hcall : call empty_state = (st1, Ok f)) by reflexivity.
  split; [|split].
  - refine (proj1 (combined_size_three_way _ _ true true true empty_state st1 f
                     (sample_info (content_length "100")
                                  (Some (content_length "50")))
                     st1 Hcall _) "100" "50" 100 50 _ _ _ _);
      solve [discriminate | reflexivity].
  - refine (proj1 (proj2 (combined_size_three_way _ _ true true true
                     empty_state st1 f
                     (sample_info (content_length "100") (Some []))
                     st1 Hcall _)) "100" 100 _ _ _);
      solve [discriminate | reflexivity].
  - refine (proj2 (proj2 (proj2 (combined_size_three_way _ _ true true true
                     empty_state st1 f (sample_info [] (Some []))
                     st1 Hcall _))) _ _);
      solve [discriminate | reflexivity].
Defined.

(** C1 as worded fails where a header is present with no numeral in it:
    with both headers present and empty the closure returns having recorded
    nothing, where the sum of the two values is promised. *)
Lemma combined_size_present_but_nothing_recorded :
  let name := "http_combined_size_bytes" in
  let cs := combined_size name "Content bytes of requests and responses."
                          true true true in
  let st1 := state_after cs empty_state in
  let f := closure_of cs empty_state in
  let empty :=
    sample_info (content_length EmptyString)
                (Some (content_length EmptyString)) in
  request_cl empty = Some EmptyString /\
  response_cl empty = Some EmptyString /\
  f empty st1 = (st1, Ok tt) /\
  samples name (fst (f empty st1)) = [].
Proof.
  intros name cs st1 f empty.
  repeat (split; [reflexivity|]). reflexivity.
Qed.

(** ** [request_size] and [response_size] *)

Lemma request_size_instrumentation_run (c : collector) (h m s : bool)
    (info : Info) (st : state) :
  labelnames c = fst (_build_label_attribute_names h m s) ->
  request_size_instrumentation c
    (fst (_build_label_attribute_names h m s))
    (snd (_build_label_attribute_names h m s)) info st =
  match request_cl info with
  | None => (st, Ok tt)
  | Some v =>
      match PyInt.parse v with
      | Some n =>
          (recorded st {| target := name c;
                          labelvalues := configured_label_values h m s info;
                          amount := NInt n |}, Ok tt)
      | None => (st, Raise (ValueError (InvalidLiteral v)))
      end
  end.
Proof.
  intros Hc. unfold request_size_instrumentation, request_cl.
  destruct (headers_get _ _) as [v|]; [|reflexivity].
  unfold int_of_header, int_of_str.
  destruct (PyInt.parse v); simpl.
  - now apply observe_labelled_or_bare_ok.
  - now apply observe_labelled_or_bare_raise.
Qed.

Lemma response_size_instrumentation_run (c : collector) (h m s : bool)
    (info : Info) (st : state) :
  labelnames c = fst (_build_label_attribute_names h m s) ->
  response_size_instrumentation c
    (fst (_build_label_attribute_names h m s))
    (snd (_build_label_attribute_names h m s)) info st =
  match response info with
  | None => (st, Raise (AttributeError "headers"))
  | Some _ =>
      match response_cl info with
      | None => (st, Ok tt)
      | Some v =>
          match PyInt.parse v with
          | Some n =>
              (recorded st {| target := name c;
                              labelvalues := configured_label_values h m s info;
                              amount := NInt n |}, Ok tt)
          | None => (st, Raise (ValueError (InvalidLiteral v)))
          end
      end
  end.
Proof.
  intros Hc.
  unfold response_size_instrumentation, response_cl, response_headers_of,
    bind, lift.
  destruct (response info) as [r|]; [|reflexivity].
  destruct (headers_get _ _) as [v|]; [|reflexivity].
  unfold int_of_header, int_of_str.
  destruct (PyInt.parse v); simpl.
  - now apply observe_labelled_or_bare_ok.
  - now apply observe_labelled_or_bare_raise.
Qed.

Lemma combined_size_instrumentation_no_response (c : collector)
    (label_names info_attribute_names : list string)
    (info : Info) (st : state) :
  response info = None ->
  combined_size_instrumentation c label_names info_attribute_names info st =
  (st, Raise (AttributeError "headers")).
Proof.
  intros Hr.
  unfold combined_size_instrumentation, response_headers_of, bind, lift.
  rewrite Hr. reflexivity.
Qed.

(** C4: when the header a size closure reads is absent, the closure leaves
    the whole state, its collector included, as it found it: no write is
    made.  With a response at hand the closure also returns normally. *)
Theorem size_closures_skip_absent_header
    (metric_name metric_doc : string) (h m s : bool)
    (st0 st1 : state) (f : Info -> M unit) (info : Info) (st : state) :
  (request_size metric_name metric_doc h m s st0 = (st1, Ok f) ->
   request_cl info = None ->
   f info st = (st, Ok tt)) /\
  (response_size metric_name metric_doc h m s st0 = (st1, Ok f) ->
   response_cl info = None ->
   fst (f info st) = st /\
   samples metric_name (fst (f info st)) = samples metric_name st /\
   (response info <> None -> f info st = (st, Ok tt))) /\
  (combined_size metric_name metric_doc h m s st0 = (st1, Ok f) ->
   request_cl info = None -> response_cl info = None ->
   fst (f info st) = st /\
   samples metric_name (fst (f info st)) = samples metric_name st /\
   (response info <> None -> f info st = (st, Ok tt))).
Proof.
  split; [|split].
  - intros Hf Hq. factory_inv Hf.
    rewrite request_size_instrumentation_run by reflexivity.
    rewrite Hq. reflexivity.
  - intros Hf Hs. factory_inv Hf.
    rewrite response_size_instrumentation_run by reflexivity.
    rewrite Hs. destruct (response info); simpl; repeat split; congruence.
  - intros Hf Hq Hs. factory_inv Hf.
    destruct (response info) as [r|] eqn:Hr.
    + rewrite (combined_size_instrumentation_run _ h m s info r) by easy.
      rewrite Hq, Hs. simpl. repeat split; congruence.
    + rewrite combined_size_instrumentation_no_response by exact Hr.
      simpl. repeat split; congruence.
Qed.

(** A request and a response that carry other headers only: each of the
    three closures returns with the state unchanged. *)
Lemma size_closures_skip_absent_header_witness :
  let rq := request_size "http_request_size_bytes" "Content bytes of requests."
                         true true true in
  let rs := response_size "http_response_size_bytes"
                          "Content bytes of responses." true false true in
  let cs := combined_size "http_combined_size_bytes"
                          "Content bytes of requests and responses."
                          false false false in
  let info := sample_info [("accept", "*/*")] (Some [("server", "uvicorn")]) in
  closure_of rq empty_state info (state_after rq empty_state) =
    (state_after rq empty_state, Ok tt) /\
  closure_of rs empty_state info (state_after rs empty_state) =
    (state_after rs empty_state, Ok tt) /\
  closure_of cs empty_state info (state_after cs empty_state) =
    (state_after cs empty_state, Ok tt).
Proof.
  intros rq rs cs info. split; [|split].
  - refine (proj1 (size_closures_skip_absent_header _ _ true true true
                     empty_state (state_after rq empty_state)
                     (closure_of rq empty_state) info _) _ _); reflexivity.
  - refine (proj2 (proj2 (proj1 (proj2 (size_closures_skip_absent_header
                     _ _ true false true
                     empty_state (state_after rs empty_state)
                     (closure_of rs empty_state) info _)) _ _)) _);
      solve [discriminate | reflexivity].
  - refine (proj2 (proj2 (proj2 (proj2 (size_closures_skip_absent_header
                     _ _ false false false
                     empty_state (state_after cs empty_state)
                     (closure_of cs empty_state) info _)) _ _ _)) _);
      solve [discriminate | reflexivity].
Defined.

(** C10: the [combined_size] closure decides on the truth value of each
    header value.  An [Info] whose request (response) [Content-Length] is
    the empty string is handled exactly as the same [Info] without that
    header: same outcome, same state; and with both headers present and
    empty nothing is recorded. *)
Theorem combined_size_empty_as_absent
    (metric_name metric_doc : string) (h m s : bool)
    (st0 st1 : state) (f : Info -> M unit)
    (info : Info) (present absent : Headers) (st : state) :
  combined_size metric_name metric_doc h m s st0 = (st1, Ok f) ->
  headers_get present "Content-Length" = Some EmptyString ->
  headers_get absent "Content-Length" = None ->
  f (with_request_headers info present) st =
    f (with_request_headers info absent) st /\
  f (with_response_headers info present) st =
    f (with_response_headers info absent) st /\
  f (with_response_headers (with_request_headers info present) present) st =
    (st, Ok tt).
Proof.
  intros Hf Hp Ha. factory_inv Hf.
  split; [|split].
  - destruct (response info) as [r|] eqn:Hr.
    + rewrite (combined_size_instrumentation_run _ h m s
                 (with_request_headers info present) r) by easy.
      rewrite (combined_size_instrumentation_run _ h m s
                 (with_request_headers info absent) r) by easy.
      unfold request_cl, response_cl. simpl. rewrite Hp, Ha. reflexivity.
    + rewrite !combined_size_instrumentation_no_response by exact Hr.
      reflexivity.
  - rewrite (combined_size_instrumentation_run _ h m s
               (with_response_headers info present)
               {| response_headers := present |}) by easy.
    rewrite (combined_size_instrumentation_run _ h m s
               (with_response_headers info absent)
               {| response_headers := absent |}) by easy.
    unfold request_cl, response_cl. simpl. rewrite Hp, Ha.
    unfold combined_content_length. simpl. rewrite !andb_false_r. reflexivity.
  - rewrite (combined_size_instrumentation_run _ h m s _
               {| response_headers := present |}) by easy.
    unfold request_cl, response_cl. simpl. rewrite Hp. reflexivity.
Qed.

(** On the closure built with the default name, an empty [Content-Length]
    and a missing one give the same outcome. *)
Lemma combined_size_empty_as_absent_witness :
  let cs := combined_size "http_combined_size_bytes"
                          "Content bytes of requests and responses."
                          true true true in
  let f := closure_of cs empty_state in
  let st1 := state_after cs empty_state in
  let info := sample_info (content_length "100") (Some (content_length "50")) in
  f (with_request_headers info (content_length EmptyString)) st1 =
    f (with_request_headers info []) st1 /\
  f (with_response_headers info (content_length EmptyString)) st1 =
    f (with_response_headers info []) st1 /\
  f (sample_info (content_length EmptyString) (Some (content_length EmptyString))) st1 =
    (st1, Ok tt).
Proof.
  intros cs f st1 info.
  exact (combined_size_empty_as_absent _ _ true true true empty_state st1 f
           info (content_length EmptyString) [] st1 eq_refl eq_refl eq_refl).
Defined.

(** ** [latency] *)

Lemma tuple_last_cons (b : list number) :
  b <> [] -> exists x, tuple_last b = Ok x /\ last b = Some x.
Proof.
  intros Hb. unfold tuple_last. destruct (last b) as [x|] eqn:Hl; eauto.
  apply last_None in Hl. contradiction.
Qed.

Lemma closed_buckets_step (b : list number) (x : number) :
  tuple_last b = Ok x ->
  (if ne_float_inf x then b ++ [float_inf] else b) = closed_buckets b.
Proof.
  unfold tuple_last, closed_buckets.
  destruct (last b); intros H; inversion H. reflexivity.
Qed.

Lemma latency_run (metric_name metric_doc : string) (h m s : bool)
    (b : list number) (st : state) :
  latency metric_name metric_doc h m s b st =
  match tuple_last b with
  | Raise e => (st, Raise e)
  | Ok _ =>
      let H := histogram_collector metric_name metric_doc h m s
                 (closed_buckets b) in
      match registry st !! metric_name with
      | Some _ => (st, Raise (ValueError (DuplicatedTimeseries metric_name)))
      | None =>
          ({| registry := <[metric_name := H]> (registry st);
              writes := writes st |},
           Ok (latency_instrumentation H
                 (fst (_build_label_attribute_names h m s))
                 (snd (_build_label_attribute_names h m s))))
      end
  end.
Proof.
  unfold latency, bind, lift.
  destruct (tuple_last b) as [x|e] eqn:Hx; [|reflexivity].
  rewrite (closed_buckets_step _ _ Hx), build_eta.
  assert (Hh : (if negb (is_nil (fst (_build_label_attribute_names h m s)))
                then Histogram metric_name metric_doc
                       (fst (_build_label_attribute_names h m s))
                       (closed_buckets b)
                else Histogram metric_name metric_doc [] (closed_buckets b))
               = Histogram metric_name metric_doc
                   (fst (_build_label_attribute_names h m s))
                   (closed_buckets b)).
  { destruct (fst (_build_label_attribute_names h m s)); reflexivity. }
  simpl fst. simpl snd. rewrite Hh.
  unfold Histogram, register. simpl.
  destruct (registry st !! metric_name); reflexivity.
Qed.

Lemma latency_instrumentation_run (c : collector) (h m s : bool)
    (info : Info) (st : state) :
  labelnames c = fst (_build_label_attribute_names h m s) ->
  latency_instrumentation c
    (fst (_build_label_attribute_names h m s))
    (snd (_build_label_attribute_names h m s)) info st =
  (recorded st {| target := name c;
                  labelvalues := configured_label_values h m s info;
                  amount := NFloat (modified_duration info) |}, Ok tt).
Proof. intros Hc. now apply observe_labelled_or_bare_ok. Qed.

(** ** [full] *)


Lemma full_run (hb lb : list number) (st : state) :
  full hb lb st =
  match tuple_last hb with
  | Raise e => (st, Raise e)
  | Ok _ =>
      match tuple_last lb with
      | Raise e => (st, Raise e)
      | Ok _ =>
          match register_seq (full_collectors hb lb) st with
          | (st', None) => (st', Ok (full_closure hb lb))
          | (st', Some n) => (st', Raise (ValueError (DuplicatedTimeseries n)))
          end
      end
  end.
Proof.
  unfold full, bind, lift.
  destruct (tuple_last hb) as [x|e] eqn:Hx; [|reflexivity].
  destruct (tuple_last lb) as [y|e] eqn:Hy; [|reflexivity].
  rewrite (closed_buckets_step _ _ Hx), (closed_buckets_step _ _ Hy).
  unfold Counter, Histogram, register, full_collectors, register_seq, ret,
    full_closure, total_counter, in_size_counter, out_size_counter,
    highr_histogram, lowr_histogram.
  repeat (cbn [name registry writes fst snd];
          match goal with
          | |- context [match ?r !! ?n with _ => _ end] =>
              destruct (r !! n)
          end; try reflexivity).
Qed.

Lemma register_seq_writes (cs : list collector) (st : state) :
  writes (fst (register_seq cs st)) = writes st.
Proof.
  revert st. induction cs as [|c cs IH]; intros st; simpl; [reflexivity|].
  destruct (registry st !! name c); [reflexivity|].
  rewrite IH. reflexivity.
Qed.

Lemma register_seq_done (cs : list collector) (st st' : state) :
  register_seq cs st = (st', None) ->
  Forall (fun c => registry st !! name c = None) cs /\
  NoDup (map name cs) /\
  st' = {| registry := registered_all cs (registry st); writes := writes st |}.
Proof.
  revert st. induction cs as [|c cs IH]; intros st; simpl.
  - intros H. inversion H; subst. repeat split; [constructor|constructor|].
    destruct st'; reflexivity.
  - destruct (registry st !! name c) eqn:Hc; [discriminate|].
    intros H. apply IH in H as (Hall & Hnd & ->). simpl in *.
    assert (Hnotin : Forall (fun c' => name c' <> name c) cs).
    { eapply Forall_impl; [exact Hall|]. simpl. intros c' Hc' Heq.
      rewrite <- Heq, lookup_insert_eq in Hc'. discriminate. }
    repeat split.
    + constructor; [exact Hc|].
      rewrite Forall_forall in Hall, Hnotin |- *. intros c' Hin.
      specialize (Hall c' Hin). specialize (Hnotin c' Hin).
      rewrite lookup_insert_ne in Hall by congruence. exact Hall.
    + constructor; [|exact Hnd].
      rewrite list_elem_of_fmap. intros (c' & Heq & Hin).
      rewrite Forall_forall in Hnotin. apply (Hnotin c' Hin). congruence.
Qed.

Lemma register_seq_fresh (cs : list collector) (st : state) :
  Forall (fun c => registry st !! name c = None) cs ->
  NoDup (map name cs) ->
  register_seq cs st =
  ({| registry := registered_all cs (registry st); writes := writes st |}, None).
Proof.
  revert st. induction cs as [|c cs IH]; intros st Hall Hnd; simpl.
  - destruct st; reflexivity.
  - inversion Hall as [|? ? Hc Hall']; subst.
    inversion Hnd as [|? ? Hnotin Hnd']; subst.
    rewrite Hc. rewrite IH; [reflexivity| |exact Hnd'].
    simpl. rewrite Forall_forall in Hall' |- *. intros c' Hin.
    rewrite lookup_insert_ne; [apply Hall', Hin|].
    intros Heq. apply Hnotin. rewrite Heq. apply list_elem_of_fmap. eauto.
Qed.

Lemma register_seq_taken (cs : list collector) (st : state) :
  Exists (fun c => registered (name c) st) cs ->
  exists n, snd (register_seq cs st) = Some n /\
            n ∈ map name cs /\
            registered n (fst (register_seq cs st)).
Proof.
  revert st. induction cs as [|c cs IH]; intros st Hex; simpl.
  - inversion Hex.
  - destruct (registry st !! name c) eqn:Hc.
    + exists (name c). simpl. repeat split; [left|].
      unfold registered. rewrite Hc. eauto.
    + destruct (IH {| registry := <[name c := c]> (registry st);
                      writes := writes st |}) as (n & Hn & Hin & Hreg).
      * inversion Hex as [? ? Hhead|? ? Htail]; subst.
        { destruct Hhead as [? Hh]. congruence. }
        eapply Exists_impl; [exact Htail|]. simpl. intros c' [x Hx].
        unfold registered. simpl.
        destruct (decide (name c = name c')) as [->|Hne].
        -- rewrite lookup_insert_eq. eauto.
        -- rewrite lookup_insert_ne by exact Hne. eauto.
      * exists n. repeat split; [exact Hn|right; exact Hin|exact Hreg].
Qed.

Lemma register_seq_first_taken (cs : list collector) (st : state) (n : string) :
  NoDup (map name cs) ->
  snd (register_seq cs st) = Some n ->
  n ∈ map name cs /\ registered n st.
Proof.
  revert st. induction cs as [|c cs IH]; intros st Hnd; simpl.
  - discriminate.
  - inversion Hnd as [|? ? Hnotin Hnd']; subst.
    destruct (registry st !! name c) eqn:Hc; simpl.
    + intros H. inversion H; subst. split; [left|].
      unfold registered. rewrite Hc. eauto.
    + intros H. destruct (IH _ Hnd' H) as (Hin & Hreg).
      split; [right; exact Hin|].
      unfold registered in *. simpl in Hreg.
      rewrite lookup_insert_ne in Hreg; [exact Hreg|].
      intros Heq. apply Hnotin. rewrite Heq. exact Hin.
Qed.

(** The closed form of the [full] closure: the five updates in order, cut
    short by the first exception. *)
Lemma full_closure_run (hb lb : list number) (info : Info) (st : state) :
  full_closure hb lb info st =
  let st1 := recorded st (inc_write total_counter 1) in
  match int_of_header_or_zero (request_cl info) with
  | Raise e => (st1, Raise e)
  | Ok n =>
      if n <? 0 then (st1, Raise (ValueError NegativeIncrement))
      else
        let st2 := recorded st1 (inc_write in_size_counter n) in
        match response info with
        | None => (st2, Raise (AttributeError "headers"))
        | Some _ =>
            match int_of_header_or_zero (response_cl info) with
            | Raise e => (st2, Raise e)
            | Ok k =>
                if k <? 0 then (st2, Raise (ValueError NegativeIncrement))
                else
                  (recorded
                     (recorded (recorded st2 (inc_write out_size_counter k))
                        (highr_write hb info))
                     (lowr_write lb info), Ok tt)
            end
        end
  end.
Proof.
  unfold full_closure, full_instrumentation, request_cl, response_cl,
    response_headers_of, bind, lift, inc, observe, labels, child_observe,
    record_write, raise, ret.
  cbn.
  destruct (int_of_header_or_zero _) as [n|e]; [|reflexivity].
  destruct (n <? 0); [reflexivity|].
  destruct (response info) as [r|]; [|reflexivity].
  destruct (int_of_header_or_zero _) as [k|e]; [|reflexivity].
  destruct (k <? 0); reflexivity.
Qed.

Lemma full_inv (hb lb : list number) (st0 st1 : state) (f : Info -> M unit) :
  full hb lb st0 = (st1, Ok f) ->
  hb <> [] /\ lb <> [] /\
  Forall (fun n => registry st0 !! n = None) full_names /\
  st1 = {| registry := registered_all (full_collectors hb lb) (registry st0);
           writes := writes st0 |} /\
  f = full_closure hb lb.
Proof.
  rewrite full_run.
  destruct (tuple_last hb) as [x|e] eqn:Hx; [|discriminate].
  destruct (tuple_last lb) as [y|e] eqn:Hy; [|discriminate].
  destruct (register_seq _ st0) as [st' [n|]] eqn:Hseq; [discriminate|].
  intros H. inversion H; subst.
  apply register_seq_done in Hseq as (Hall & _ & ->).
  repeat split; try reflexivity.
  - intros ->. discriminate.
  - intros ->. discriminate.
  - unfold full_names, full_collectors in *.
    repeat (apply Forall_cons in Hall as [? Hall]).
    repeat constructor; assumption.
Qed.

Ltac settle_samples :=
  rewrite ?samples_recorded, ?counter_value_recorded;
  cbn [target inc_write highr_write lowr_write name total_counter
       in_size_counter out_size_counter highr_histogram lowr_histogram
       int_amount amount];
  repeat case_decide; try congruence;
  rewrite ?app_nil_r, <- ?app_assoc; simpl; try reflexivity; try lia.

(** C2: every invocation of the [full] closure adds exactly one increment
    of 1 to [http_requests_total], whatever the headers are and whether or
    not a later update raises.  With the request's [Content-Length] absent,
    [http_in_bytes_total] receives an increment of 0 and keeps its value;
    with the response's absent, [http_out_bytes_total] keeps its value,
    through an increment of 0 whenever the closure reaches that update. *)
Theorem full_counters
    (hb lb : list number) (st0 st1 : state) (f : Info -> M unit)
    (info : Info) (st : state) :
  full hb lb st0 = (st1, Ok f) ->
  let st' := fst (f info st) in
  (samples "http_requests_total" st' =
     samples "http_requests_total" st ++ [inc_write total_counter 1] /\
   counter_value "http_requests_total" st' =
     counter_value "http_requests_total" st + 1) /\
  (request_cl info = None ->
   samples "http_in_bytes_total" st' =
     samples "http_in_bytes_total" st ++ [inc_write in_size_counter 0] /\
   counter_value "http_in_bytes_total" st' =
     counter_value "http_in_bytes_total" st + 0) /\
  (response_cl info = None ->
   counter_value "http_out_bytes_total" st' =
     counter_value "http_out_bytes_total" st + 0 /\
   (forall n, response info <> None ->
              int_of_header_or_zero (request_cl info) = Ok n -> 0 <= n ->
              samples "http_out_bytes_total" st' =
                samples "http_out_bytes_total" st ++
                [inc_write out_size_counter 0])).
Proof.
  intros Hf st'. apply full_inv in Hf as (_ & _ & _ & _ & ->).
  subst st'. rewrite full_closure_run. cbv zeta.
  split; [|split].
  - destruct (int_of_header_or_zero (request_cl info)) as [n|e]; simpl;
      [|split; settle_samples].
    destruct (n <? 0); simpl; [split; settle_samples|].
    destruct (response info); simpl; [|split; settle_samples].
    destruct (int_of_header_or_zero (response_cl info)) as [k|e]; simpl;
      [|split; settle_samples].
    destruct (k <? 0); simpl; split; settle_samples.
  - intros ->. simpl.
    destruct (response info); simpl; [|split; settle_samples].
    destruct (int_of_header_or_zero (response_cl info)) as [k|e]; simpl;
      [|split; settle_samples].
    destruct (k <? 0); simpl; split; settle_samples.
  - intros ->. split.
    + destruct (int_of_header_or_zero (request_cl info)) as [n|e]; simpl;
        [|settle_samples].
      destruct (n <? 0); simpl; [settle_samples|].
      destruct (response info); simpl; settle_samples.
    + intros n Hr Hn Hpos. rewrite Hn.
      destruct (n <? 0) eqn:Hlt; [lia|].
      destruct (response info); [|contradiction]. simpl. settle_samples.
Qed.

(** One invocation without any [Content-Length], right after [full] with
    its default buckets: the request counter is at 1, both byte counters
    are at 0, and the incoming one has received its increment of 0. *)
Lemma full_counters_witness :
  let call := full default_latency_highr_buckets default_latency_lowr_buckets in
  let st1 := state_after call empty_state in
  let f := closure_of call empty_state in
  let st' := fst (f (sample_info [] (Some [])) st1) in
  counter_value "http_requests_total" st' = 1 /\
  counter_value "http_in_bytes_total" st' = 0 /\
  counter_value "http_out_bytes_total" st' = 0 /\
  samples "http_in_bytes_total" st' = [inc_write in_size_counter 0].
Proof.
  intros call st1 f st'.
  destruct (full_counters default_latency_highr_buckets
              default_latency_lowr_buckets empty_state st1 f
              (sample_info [] (Some [])) st1 eq_refl)
    as ((_ & Htotal) & Hin & Hout).
  destruct (Hin eq_refl) as (Hin_samples & Hin_value).
  destruct (Hout eq_refl) as (Hout_value & _).
  split; [|split; [|split]].
  - exact Htotal.
  - exact Hin_value.
  - exact Hout_value.
  - exact Hin_samples.
Defined.

(** ** Bucket tuples *)

Lemma closed_buckets_closes (b : list number) :
  b <> [] -> closes b (closed_buckets b).
Proof.
  intros Hb. split; [now apply closed_buckets_last|].
  unfold closed_buckets.
  destruct (last b) as [x|] eqn:Hl; [|apply last_None in Hl; contradiction].
  destruct (ne_float_inf x) eqn:Hx.
  - split; [|reflexivity].
    intros Hinf. inversion Hinf; subst. discriminate.
  - apply ne_float_inf_false in Hx. subst. split; [reflexivity|].
    intros Hne. contradiction.
Qed.

Lemma full_registry_lookups (hb lb : list number) (r : gmap string collector) :
  let r' := registered_all (full_collectors hb lb) r in
  r' !! "http_requests_total" = Some total_counter /\
  r' !! "http_in_bytes_total" = Some in_size_counter /\
  r' !! "http_out_bytes_total" = Some out_size_counter /\
  r' !! "http_highr_request_duration_seconds" =
    Some (highr_histogram (closed_buckets hb)) /\
  r' !! "http_lowr_request_duration_seconds" =
    Some (lowr_histogram (closed_buckets lb)).
Proof.
  unfold registered_all, full_collectors. simpl.
  repeat split; by simplify_map_eq.
Qed.

Lemma full_names_NoDup (hb lb : list number) :
  NoDup (map name (full_collectors hb lb)).
Proof.
  simpl. repeat (constructor; [rewrite ?elem_of_cons, ?elem_of_nil; intuition congruence|]).
  constructor.
Qed.

Lemma full_fresh (hb lb : list number) (st : state) :
  hb <> [] -> lb <> [] ->
  Forall (fun n => registry st !! n = None) full_names ->
  full hb lb st =
  ({| registry := registered_all (full_collectors hb lb) (registry st);
      writes := writes st |}, Ok (full_closure hb lb)).
Proof.
  intros Hhb Hlb Hall. rewrite full_run.
  destruct (tuple_last_cons hb Hhb) as (x & -> & _).
  destruct (tuple_last_cons lb Hlb) as (y & -> & _).
  rewrite register_seq_fresh; [reflexivity| |apply full_names_NoDup].
  unfold full_names, full_collectors in *.
  repeat (apply Forall_cons in Hall as [? Hall]).
  repeat constructor; assumption.
Qed.

(** C5: the bucket tuple a histogram is constructed with is the caller's
    tuple closed with positive infinity: infinity is appended exactly when
    the caller's last boundary is not infinity already, and nothing else
    changes.  This holds for the tuple of [latency] and for both tuples of
    [full]; and construction does go through for every non-empty tuple
    when the metric names are free. *)
Theorem histogram_buckets_end_in_infinity
    (metric_name metric_doc : string) (h m s : bool)
    (b hb lb : list number) (st : state) :
  (forall st' f,
      latency metric_name metric_doc h m s b st = (st', Ok f) ->
      exists c, registry st' !! metric_name = Some c /\
                kind c = KHistogram /\ closes b (upper_bounds c)) /\
  (forall st' f,
      full hb lb st = (st', Ok f) ->
      exists ch cl,
        registry st' !! "http_highr_request_duration_seconds" = Some ch /\
        registry st' !! "http_lowr_request_duration_seconds" = Some cl /\
        kind ch = KHistogram /\ kind cl = KHistogram /\
        closes hb (upper_bounds ch) /\ closes lb (upper_bounds cl)) /\
  (b <> [] -> registry st !! metric_name = None ->
   exists st' f, latency metric_name metric_doc h m s b st = (st', Ok f)) /\
  (hb <> [] -> lb <> [] ->
   Forall (fun n => registry st !! n = None) full_names ->
   exists st' f, full hb lb st = (st', Ok f)).
Proof.
  split; [|split; [|split]].
  - intros st' f. rewrite latency_run.
    destruct (tuple_last b) as [x|e] eqn:Hx; [|discriminate].
    cbv zeta. destruct (registry st !! metric_name); [discriminate|].
    intros H. inversion H; subst. clear H.
    eexists. simpl. rewrite lookup_insert_eq. split; [reflexivity|].
    split; [reflexivity|]. simpl. apply closed_buckets_closes.
    intros ->. discriminate.
  - intros st' f Hf. apply full_inv in Hf as (Hhb & Hlb & _ & -> & _).
    destruct (full_registry_lookups hb lb (registry st))
      as (_ & _ & _ & Hh & Hl).
    exists (highr_histogram (closed_buckets hb)),
           (lowr_histogram (closed_buckets lb)).
    simpl. repeat split; try assumption; now apply closed_buckets_closes.
  - intros Hb Hfresh. rewrite latency_run.
    destruct (tuple_last_cons b Hb) as (x & -> & _).
    cbv zeta. rewrite Hfresh. eauto.
  - intros Hhb Hlb Hall. rewrite (full_fresh hb lb st Hhb Hlb Hall). eauto.
Qed.

(** The default tuples, none of which ends in infinity, on the empty
    registry. *)
Lemma histogram_buckets_end_in_infinity_witness :
  let name := "http_request_duration_seconds" in
  let doc := "Duration of HTTP requests in seconds" in
  let lat := latency name doc true true true default_latency_lowr_buckets in
  let ful := full default_latency_highr_buckets default_latency_lowr_buckets in
  (exists c, registry (state_after lat empty_state) !! name = Some c /\
             kind c = KHistogram /\
             closes default_latency_lowr_buckets (upper_bounds c)) /\
  (exists ch cl,
      registry (state_after ful empty_state)
        !! "http_highr_request_duration_seconds" = Some ch /\
      registry (state_after ful empty_state)
        !! "http_lowr_request_duration_seconds" = Some cl /\
      kind ch = KHistogram /\ kind cl = KHistogram /\
      closes default_latency_highr_buckets (upper_bounds ch) /\
      closes default_latency_lowr_buckets (upper_bounds cl)) /\
  (exists st' f, lat empty_state = (st', Ok f)) /\
  (exists st' f, ful empty_state = (st', Ok f)).
Proof.
  intros name doc lat ful.
  destruct (histogram_buckets_end_in_infinity name doc true true true
              default_latency_lowr_buckets default_latency_highr_buckets
              default_latency_lowr_buckets empty_state)
    as (Hlat & Hful & Hlat_ok & Hful_ok).
  split; [|split; [|split]].
  - exact (Hlat (state_after lat empty_state) (closure_of lat empty_state)
             eq_refl).
  - exact (Hful (state_after ful empty_state) (closure_of ful empty_state)
             eq_refl).
  - apply Hlat_ok; [discriminate | reflexivity].
  - apply Hful_ok; [discriminate | discriminate |].
    unfold full_names. repeat constructor.
Defined.

(** ** The collectors of [full] *)

(** C6: a call of [full] that returns has registered exactly five new
    collectors, named [http_requests_total], [http_in_bytes_total],
    [http_out_bytes_total], [http_highr_request_duration_seconds] and
    [http_lowr_request_duration_seconds]; the last carries the label names
    (method, status, handler) and the other four carry none.  The call
    returns whenever both bucket tuples are non-empty and the five names are
    free. *)
Theorem full_registers_five_collectors
    (hb lb : list number) (st : state) :
  (forall st' f,
      full hb lb st = (st', Ok f) ->
      Forall (fun n => registry st !! n = None) full_names /\
      (exists TOTAL IN_SIZE OUT_SIZE LATENCY_HIGHR LATENCY_LOWR,
          let cs := [TOTAL; IN_SIZE; OUT_SIZE; LATENCY_HIGHR; LATENCY_LOWR] in
          registry st' = registered_all cs (registry st) /\
          Forall (fun c => registry st' !! name c = Some c) cs /\
          map name cs = full_names /\
          map kind cs =
            [KCounter; KCounter; KCounter; KHistogram; KHistogram] /\
          map labelnames cs =
            [[]; []; []; []; ["method"; "status"; "handler"]]) /\
      dom (registry st') = dom (registry st) ∪ list_to_set full_names /\
      size (registry st') = (size (registry st) + 5)%nat /\
      writes st' = writes st) /\
  (hb <> [] -> lb <> [] ->
   Forall (fun n => registry st !! n = None) full_names ->
   exists st' f, full hb lb st = (st', Ok f)).
Proof.
  split.
  - intros st' f Hf. apply full_inv in Hf as (_ & _ & Hall & -> & _).
    split; [exact Hall|].
    destruct (full_registry_lookups hb lb (registry st))
      as (H1 & H2 & H3 & H4 & H5).
    unfold full_names in Hall.
    repeat (apply Forall_cons in Hall as [? Hall]).
    split; [|split; [|split]].
    + exists total_counter, in_size_counter, out_size_counter,
        (highr_histogram (closed_buckets hb)),
        (lowr_histogram (closed_buckets lb)).
      cbv zeta. split; [reflexivity|].
      split; [|repeat split].
      repeat constructor; assumption.
    + unfold registered_all, full_collectors, full_names. simpl.
      rewrite !dom_insert_L. apply set_eq. intros x.
      rewrite !elem_of_union, !elem_of_singleton.
      pose proof (not_elem_of_empty (C := gset string) x). tauto.
    + unfold registered_all, full_collectors. simpl.
      rewrite !map_size_insert_None; [lia|..]; by simplify_map_eq.
    + reflexivity.
  - intros Hhb Hlb Hall. rewrite (full_fresh hb lb st Hhb Hlb Hall). eauto.
Qed.

(** [full] with its default buckets on the empty registry. *)
Lemma full_registers_five_collectors_witness :
  let ful := full default_latency_highr_buckets default_latency_lowr_buckets in
  let st' := state_after ful empty_state in
  dom (registry st') = list_to_set full_names /\
  size (registry st') = 5%nat /\
  (labelnames <$> registry st' !! "http_lowr_request_duration_seconds") =
    Some ["method"; "status"; "handler"] /\
  (exists st'' f, ful empty_state = (st'', Ok f)).
Proof.
  intros ful st'.
  destruct (full_registers_five_collectors default_latency_highr_buckets
              default_latency_lowr_buckets empty_state) as (Hret & Hok).
  destruct (Hret st' (closure_of ful empty_state) eq_refl)
    as (_ & _ & Hdom & Hsize & _).
  split; [|split; [|split]].
  - rewrite Hdom. simpl. rewrite dom_empty_L. apply (left_id_L ∅ (∪)).
  - exact Hsize.
  - reflexivity.
  - apply Hok; [discriminate | discriminate |].
    unfold full_names. repeat constructor.
Defined.

(** ** Duplicate names *)

Lemma run_call_registers (c : factory_call) (st st1 : state)
    (f : Info -> M unit) :
  run_call c st = (st1, Ok f) ->
  Forall (fun n => registered n st1) (call_names c).
Proof.
  destruct c as [n d h m s b|n d h m s|n d h m s|n d h m s|hb lb]; simpl.
  - rewrite latency_run. destruct (tuple_last b); [|discriminate].
    cbv zeta. destruct (registry st !! n); [discriminate|].
    intros H. inversion H; subst. repeat constructor.
    unfold registered. simpl. rewrite lookup_insert_eq. eauto.
  - rewrite request_size_run. destruct (registry st !! n); [discriminate|].
    intros H. inversion H; subst. repeat constructor.
    unfold registered. simpl. rewrite lookup_insert_eq. eauto.
  - rewrite response_size_run. destruct (registry st !! n); [discriminate|].
    intros H. inversion H; subst. repeat constructor.
    unfold registered. simpl. rewrite lookup_insert_eq. eauto.
  - rewrite combined_size_run. destruct (registry st !! n); [discriminate|].
    intros H. inversion H; subst. repeat constructor.
    unfold registered. simpl. rewrite lookup_insert_eq. eauto.
  - intros H. apply full_inv in H as (_ & _ & _ & -> & _).
    destruct (full_registry_lookups hb lb (registry st))
      as (H1 & H2 & H3 & H4 & H5).
    unfold full_names, registered. simpl. repeat constructor; eauto.
Qed.

Lemma run_call_taken (c : factory_call) (st : state) :
  call_buckets_ok c ->
  Exists (fun n => registered n st) (call_names c) ->
  exists n st',
    run_call c st = (st', Raise (ValueError (DuplicatedTimeseries n))) /\
    n ∈ call_names c /\ registered n st /\
    writes st' = writes st /\
    (single_metric c = true -> st' = st).
Proof.
  destruct c as [n d h m s b|n d h m s|n d h m s|n d h m s|hb lb]; simpl;
    intros Hok Hex.
  - apply Exists_cons in Hex as [Hn|Hex]; [|inversion Hex].
    exists n, st. rewrite latency_run.
    destruct (tuple_last_cons b Hok) as (x & -> & _). cbv zeta.
    destruct Hn as [c Hc]. rewrite Hc.
    repeat split; [left|]. unfold registered. eauto.
  - apply Exists_cons in Hex as [Hn|Hex]; [|inversion Hex].
    exists n, st. rewrite request_size_run.
    destruct Hn as [c Hc]. rewrite Hc.
    repeat split; [left|]. unfold registered. eauto.
  - apply Exists_cons in Hex as [Hn|Hex]; [|inversion Hex].
    exists n, st. rewrite response_size_run.
    destruct Hn as [c Hc]. rewrite Hc.
    repeat split; [left|]. unfold registered. eauto.
  - apply Exists_cons in Hex as [Hn|Hex]; [|inversion Hex].
    exists n, st. rewrite combined_size_run.
    destruct Hn as [c Hc]. rewrite Hc.
    repeat split; [left|]. unfold registered. eauto.
  - destruct Hok as [Hhb Hlb].
    destruct (register_seq_taken (full_collectors hb lb) st)
      as (n & Hn & _ & _).
    { unfold full_names, full_collectors in *. simpl.
      rewrite !Exists_cons, Exists_nil in Hex |- *. simpl. exact Hex. }
    pose proof (register_seq_writes (full_collectors hb lb) st) as Hw.
    destruct (register_seq_first_taken (full_collectors hb lb) st n
                (full_names_NoDup hb lb) Hn) as (Hin & Hreg).
    exists n, (fst (register_seq (full_collectors hb lb) st)).
    rewrite full_run.
    destruct (tuple_last_cons hb Hhb) as (x & -> & _).
    destruct (tuple_last_cons lb Hlb) as (y & -> & _).
    destruct (register_seq (full_collectors hb lb) st) as [st' o].
    cbn [fst snd] in *. subst o.
    split; [reflexivity|]. split; [exact Hin|]. split; [exact Hreg|].
    split; [exact Hw | discriminate].
Qed.

Lemma call_buckets_ok_dec (c : factory_call) :
  call_buckets_ok c \/
  (forall st, run_call c st = (st, Raise IndexError)).
Proof.
  destruct c as [n d h m s b|n d h m s|n d h m s|n d h m s|hb lb]; simpl;
    try (left; exact I).
  - destruct b as [|x b]; [right; reflexivity | left; discriminate].
  - destruct hb as [|x hb]; [right; reflexivity|].
    destruct lb as [|y lb]; [|left; split; discriminate].
    right. intros st. rewrite full_run.
    destruct (tuple_last_cons (x :: hb)) as (z & -> & _); [discriminate|].
    reflexivity.
Qed.

(** C8: once a factory call has constructed its collectors, a further
    factory call that would construct a collector under one of the
    registered names never returns a closure: it raises at construction and
    records no observation, and a single-metric factory leaves the state
    untouched.  When its bucket tuples can be indexed, what it raises is the
    duplicate-name error of the constructor, passed on as it is.  The same
    holds for a name registered by any other means. *)
Theorem duplicate_name_fails_at_construction
    (first second : factory_call) (st st1 : state) (f : Info -> M unit) :
  run_call first st = (st1, Ok f) ->
  (exists n, n ∈ call_names first /\ n ∈ call_names second) ->
  (exists e st2,
      run_call second st1 = (st2, Raise e) /\
      writes st2 = writes st1 /\
      (single_metric second = true -> st2 = st1) /\
      (call_buckets_ok second ->
       exists n, e = ValueError (DuplicatedTimeseries n) /\
                 n ∈ call_names second /\ registered n st1)) /\
  (forall st0,
      call_buckets_ok second ->
      Exists (fun n => registered n st0) (call_names second) ->
      exists n st2,
        run_call second st0 =
          (st2, Raise (ValueError (DuplicatedTimeseries n))) /\
        writes st2 = writes st0).
Proof.
  intros Hfirst (n & Hn1 & Hn2). split.
  - assert (Hex : Exists (fun n => registered n st1) (call_names second)).
    { apply run_call_registers in Hfirst.
      rewrite Forall_forall in Hfirst. apply Exists_exists.
      exists n. split; [exact Hn2|]. apply Hfirst, Hn1. }
    destruct (call_buckets_ok_dec second) as [Hok|Hbad].
    + destruct (run_call_taken second st1 Hok Hex)
        as (n' & st2 & Hrun & Hin & Hreg & Hw & Hsingle).
      exists (ValueError (DuplicatedTimeseries n')), st2.
      repeat split; try assumption. intros _. exists n'.
      repeat split; assumption.
    + exists IndexError, st1. rewrite Hbad.
      repeat split. intros Hok.
      destruct (run_call_taken second st1 Hok Hex) as (n' & st2 & Hrun & _).
      rewrite Hbad in Hrun. discriminate.
  - intros st0 Hok Hex.
    destruct (run_call_taken second st0 Hok Hex)
      as (n' & st2 & Hrun & _ & _ & Hw & _).
    eauto.
Qed.

(** After [full], a second [full] and a [latency] named like one of its
    counters both raise. *)
Lemma duplicate_name_fails_at_construction_witness :
  let first := CallFull default_latency_highr_buckets
                        default_latency_lowr_buckets in
  let second := CallLatency "http_in_bytes_total" "Incoming bytes."
                            true true true default_latency_lowr_buckets in
  let st1 := state_after (run_call first) empty_state in
  (exists e st2,
      run_call first st1 = (st2, Raise e) /\ writes st2 = writes st1) /\
  (exists e, run_call second st1 = (st1, Raise e)).
Proof.
  intros first second st1. split.
  - destruct (duplicate_name_fails_at_construction first first empty_state st1
                (closure_of (run_call first) empty_state) eq_refl)
      as ((e & st2 & Hrun & Hw & _) & _).
    + exists "http_requests_total". split; left.
    + exists e, st2. split; assumption.
  - destruct (duplicate_name_fails_at_construction first second empty_state
                st1 (closure_of (run_call first) empty_state) eq_refl)
      as ((e & st2 & Hrun & _ & Hst & _) & _).
    + exists "http_in_bytes_total". split; [right; left | left].
    + exists e. rewrite <- (Hst eq_refl) at 2. exact Hrun.
Defined.

(** ** Parse failures *)

Lemma int_of_header_or_zero_invalid (v : string) :
  PyInt.parse v = None ->
  int_of_header_or_zero (Some v) = Raise (ValueError (InvalidLiteral v)).
Proof. intros H. unfold int_of_header_or_zero, int_of_str. now rewrite H. Qed.






(** ** An [Info] without a response *)

(** C9, as the code has it: on an [Info] whose response is [None], the
    closures of [response_size] and [combined_size] raise the attribute
    error and write nothing.  The closure of [full] never completes: it
    raises the attribute error, with [http_requests_total] and
    [http_in_bytes_total] already incremented, whenever the request's
    [Content-Length] is absent or a non-negative numeral, and it raises the
    request-side error before reaching the response otherwise.  The
    [latency] closure completes, and so does the [request_size] closure
    when the request's [Content-Length] is absent or a numeral. *)
Theorem closures_without_response
    (metric_name metric_doc : string) (h m s : bool) (b hb lb : list number)
    (st0 st1 : state) (f : Info -> M unit) (info : Info) (st : state) :
  response info = None ->
  let no_headers := Raise (AttributeError "headers") in
  (response_size metric_name metric_doc h m s st0 = (st1, Ok f) ->
   f info st = (st, no_headers)) /\
  (combined_size metric_name metric_doc h m s st0 = (st1, Ok f) ->
   f info st = (st, no_headers)) /\
  (full hb lb st0 = (st1, Ok f) ->
   (exists e, snd (f info st) = Raise e) /\
   (forall n, int_of_header_or_zero (request_cl info) = Ok n -> 0 <= n ->
              f info st =
                (recorded (recorded st (inc_write total_counter 1))
                          (inc_write in_size_counter n), no_headers)) /\
   (forall v, request_cl info = Some v -> PyInt.parse v = None ->
              f info st =
                (recorded st (inc_write total_counter 1),
                 Raise (ValueError (InvalidLiteral v)))) /\
   (forall n, int_of_header_or_zero (request_cl info) = Ok n -> n < 0 ->
              f info st =
                (recorded st (inc_write total_counter 1),
                 Raise (ValueError NegativeIncrement)))) /\
  (latency metric_name metric_doc h m s b st0 = (st1, Ok f) ->
   f info st =
     (recorded st {| target := metric_name;
                     labelvalues := configured_label_values h m s info;
                     amount := NFloat (modified_duration info) |}, Ok tt)) /\
  (request_size metric_name metric_doc h m s st0 = (st1, Ok f) ->
   (request_cl info = None -> f info st = (st, Ok tt)) /\
   (forall v n, request_cl info = Some v -> PyInt.parse v = Some n ->
                f info st =
                  (recorded st
                     {| target := metric_name;
                        labelvalues := configured_label_values h m s info;
                        amount := NInt n |}, Ok tt))).
Proof.
  intros Hr no_headers. split; [|split; [|split; [|split]]].
  - intros Hf. factory_inv Hf.
    rewrite response_size_instrumentation_run by reflexivity.
    rewrite Hr. reflexivity.
  - intros Hf. factory_inv Hf.
    now apply combined_size_instrumentation_no_response.
  - intros Hf. apply full_inv in Hf as (_ & _ & _ & _ & ->).
    split; [|split; [|split]].
    + rewrite full_closure_run, Hr. cbv zeta.
      destruct (int_of_header_or_zero (request_cl info)) as [n|e];
        [|simpl; eauto].
      destruct (n <? 0); simpl; eauto.
    + intros n Hn Hpos. rewrite full_closure_run, Hn, Hr. cbv zeta.
      destruct (n <? 0) eqn:Hlt; [lia | reflexivity].
    + intros v Hq Hv. rewrite full_closure_run, Hq.
      rewrite int_of_header_or_zero_invalid by exact Hv. reflexivity.
    + intros n Hn Hneg. rewrite full_closure_run, Hn. cbv zeta.
      destruct (n <? 0) eqn:Hlt; [reflexivity | lia].
  - rewrite latency_run. destruct (tuple_last b); [|discriminate].
    cbv zeta. destruct (registry st0 !! metric_name); [discriminate|].
    intros Hf. inversion Hf; subst.
    now rewrite latency_instrumentation_run.
  - intros Hf. factory_inv Hf. split.
    + intros Hq. rewrite request_size_instrumentation_run by reflexivity.
      rewrite Hq. reflexivity.
    + intros v n Hq Hn. rewrite request_size_instrumentation_run by reflexivity.
      rewrite Hq, Hn. reflexivity.
Qed.

(** A request of 100 bytes that got no response. *)
Lemma closures_without_response_witness :
  let rs := response_size "http_response_size_bytes"
                          "Content bytes of responses." true true true in
  let ful := full default_latency_highr_buckets default_latency_lowr_buckets in
  let info := sample_info (content_length "100") None in
  closure_of rs empty_state info (state_after rs empty_state) =
    (state_after rs empty_state, Raise (AttributeError "headers")) /\
  closure_of ful empty_state info (state_after ful empty_state) =
    (recorded (recorded (state_after ful empty_state)
                        (inc_write total_counter 1))
              (inc_write in_size_counter 100),
     Raise (AttributeError "headers")).
Proof.
  intros rs ful info. split.
  - refine (proj1 (closures_without_response _ _ true true true [] [] []
                     empty_state (state_after rs empty_state)
                     (closure_of rs empty_state) info _ _) _);
      reflexivity.
  - refine (proj1 (proj2 (proj1 (proj2 (proj2 (closures_without_response
                     EmptyString EmptyString true true true []
                     default_latency_highr_buckets default_latency_lowr_buckets
                     empty_state (state_after ful empty_state)
                     (closure_of ful empty_state) info _ _))) _)) 100 _ _);
      solve [reflexivity | lia].
Defined.

(** C9 as worded fails for [full]: with no response and a request
    [Content-Length] that is no numeral, the closure raises the parse
    failure of the request header and never reaches the response. *)
Lemma full_without_response_value_error :
  let ful := full default_latency_highr_buckets default_latency_lowr_buckets in
  let info := sample_info (content_length "abc") None in
  response info = None /\
  closure_of ful empty_state info (state_after ful empty_state) =
    (recorded (state_after ful empty_state) (inc_write total_counter 1),
     Raise (ValueError (InvalidLiteral "abc"))) /\
  (forall attr,
      snd (closure_of ful empty_state info (state_after ful empty_state)) <>
      Raise (AttributeError attr)).
Proof.
  intros ful info. split; [reflexivity|]. split; [reflexivity|].
  intros attr H. discriminate H.
Qed.

(** * Further properties of the factories and their closures *)

(** ** What the single-metric closures record *)

Lemma latency_inv (metric_name metric_doc : string) (h m s : bool)
    (b : list number) (st0 st1 : state) (f : Info -> M unit) :
  latency metric_name metric_doc h m s b st0 = (st1, Ok f) ->
  b <> [] /\ registry st0 !! metric_name = None /\
  st1 = {| registry :=
             <[metric_name := histogram_collector metric_name metric_doc h m s
                                (closed_buckets b)]> (registry st0);
           writes := writes st0 |} /\
  f = latency_instrumentation
        (histogram_collector metric_name metric_doc h m s (closed_buckets b))
        (fst (_build_label_attribute_names h m s))
        (snd (_build_label_attribute_names h m s)).
Proof.
  rewrite latency_run.
  destruct (tuple_last b) as [x|e] eqn:Hx; [|discriminate].
  cbv zeta. destruct (registry st0 !! metric_name) eqn:Hn; [discriminate|].
  intros H. inversion H; subst. repeat split.
  intros ->. discriminate.
Qed.

(** X1: the [latency] closure records on every [Info], whatever its request
    and response are: exactly one sample, the duration, under the
    configured label values, and it returns normally. *)
Theorem latency_closure_records_duration
    (metric_name metric_doc : string) (h m s : bool) (b : list number)
    (st0 st1 : state) (f : Info -> M unit) (info : Info) (st : state) :
  latency metric_name metric_doc h m s b st0 = (st1, Ok f) ->
  f info st =
    (recorded st {| target := metric_name;
                    labelvalues := configured_label_values h m s info;
                    amount := NFloat (modified_duration info) |}, Ok tt) /\
  (forall rq rs,
      f (with_response (with_request_headers info rq) rs) st = f info st).
Proof.
  intros Hf. apply latency_inv in Hf as (_ & _ & _ & ->).
  split.
  - now rewrite latency_instrumentation_run.
  - intros rq rs. now rewrite !latency_instrumentation_run.
Qed.

(** The 0.3 s request on the three-label histogram. *)
Lemma latency_closure_records_duration_witness :
  let lat := latency default_latency_name "Duration of HTTP requests in seconds"
                     true true true default_latency_lowr_buckets in
  let st1 := state_after lat empty_state in
  closure_of lat empty_state (sample_info [] None) st1 =
    (recorded st1
       {| target := default_latency_name;
          labelvalues := [OStr "/"; OStr "GET"; OStr "2xx"];
          amount := NFloat (S754_finite false 5404319552844595 (-54)) |},
     Ok tt).
Proof.
  intros lat st1.
  exact (proj1 (latency_closure_records_duration _ _ true true true
                  default_latency_lowr_buckets empty_state st1
                  (closure_of lat empty_state) (sample_info [] None) st1
                  eq_refl)).
Defined.

(** X2: with a numeral in the request's [Content-Length], the
    [request_size] closure records exactly that number, once; and it never
    consults the response, so the outcome is the same with any response or
    with none. *)
Theorem request_size_closure_records_length
    (metric_name metric_doc : string) (h m s : bool)
    (st0 st1 : state) (f : Info -> M unit) (info : Info) (st : state) :
  request_size metric_name metric_doc h m s st0 = (st1, Ok f) ->
  (forall v n,
      request_cl info = Some v -> PyInt.parse v = Some n ->
      f info st =
        (recorded st {| target := metric_name;
                        labelvalues := configured_label_values h m s info;
                        amount := NInt n |}, Ok tt)) /\
  (forall r, f (with_response info r) st = f info st).
Proof.
  intros Hf. factory_inv Hf. split.
  - intros v n Hq Hn.
    rewrite request_size_instrumentation_run by reflexivity.
    rewrite Hq, Hn. reflexivity.
  - intros r. now rewrite !request_size_instrumentation_run.
Qed.

(** A request of 100 bytes, with a response and without one. *)
Lemma request_size_closure_records_length_witness :
  let rq := request_size default_request_size_name "Content bytes of requests."
                         true true true in
  let st1 := state_after rq empty_state in
  let f := closure_of rq empty_state in
  f (sample_info (content_length "100") (Some [])) st1 =
    (recorded st1 {| target := default_request_size_name;
                     labelvalues := [OStr "/"; OStr "GET"; OStr "2xx"];
                     amount := NInt 100 |}, Ok tt) /\
  f (with_response (sample_info (content_length "100") (Some [])) None) st1 =
    f (sample_info (content_length "100") (Some [])) st1.
Proof.
  intros rq st1 f.
  destruct (request_size_closure_records_length _ _ true true true
              empty_state st1 f
              (sample_info (content_length "100") (Some [])) st1 eq_refl)
    as (Hrec & Hresp).
  split.
  - exact (Hrec "100" 100 eq_refl eq_refl).
  - exact (Hresp None).
Defined.

(** X3: with a numeral in the response's [Content-Length], the
    [response_size] closure records exactly that number, once; and it never
    reads the request's headers. *)
Theorem response_size_closure_records_length
    (metric_name metric_doc : string) (h m s : bool)
    (st0 st1 : state) (f : Info -> M unit) (info : Info) (st : state) :
  response_size metric_name metric_doc h m s st0 = (st1, Ok f) ->
  (forall v n,
      response_cl info = Some v -> PyInt.parse v = Some n ->
      f info st =
        (recorded st {| target := metric_name;
                        labelvalues := configured_label_values h m s info;
                        amount := NInt n |}, Ok tt)) /\
  (forall rq, f (with_request_headers info rq) st = f info st).
Proof.
  intros Hf. factory_inv Hf. split.
  - intros v n Hs Hn.
    rewrite response_size_instrumentation_run by reflexivity.
    rewrite Hs, Hn. unfold response_cl in Hs.
    destruct (response info); [reflexivity | discriminate].
  - intros rq. now rewrite !response_size_instrumentation_run.
Qed.

(** A response of 50 bytes, whatever the request announces. *)
Lemma response_size_closure_records_length_witness :
  let rs := response_size default_response_size_name
                          "Content bytes of responses." false true false in
  let st1 := state_after rs empty_state in
  let f := closure_of rs empty_state in
  let info := sample_info (content_length "abc") (Some (content_length "50")) in
  f info st1 =
    (recorded st1 {| target := default_response_size_name;
                     labelvalues := [OStr "GET"];
                     amount := NInt 50 |}, Ok tt) /\
  f (with_request_headers info []) st1 = f info st1.
Proof.
  intros rs st1 f info.
  destruct (response_size_closure_records_length _ _ false true false
              empty_state st1 f info st1 eq_refl) as (Hrec & Hreq).
  split.
  - exact (Hrec "50" 50 eq_refl eq_refl).
  - exact (Hreq []).
Defined.

(** ** What the closures leave alone *)

Lemma configured_label_values_length (h m s : bool) (info : Info) :
  length (configured_label_values h m s info) =
  length (fst (_build_label_attribute_names h m s)).
Proof. destruct h, m, s; reflexivity. Qed.

Lemma single_closure_outcome (c : factory_call) (st0 st1 : state)
    (f : Info -> M unit) (info : Info) (st : state) :
  single_metric c = true ->
  run_call c st0 = (st1, Ok f) ->
  exists metric_name h m s C,
    call_names c = [metric_name] /\
    registry st1 !! metric_name = Some C /\
    labelnames C = fst (_build_label_attribute_names h m s) /\
    single_outcome metric_name h m s info st (f info st).
Proof.
  intros Hsingle Hrun.
  destruct c as [n d h m s b|n d h m s|n d h m s|n d h m s|hb lb];
    simpl in *; try discriminate; clear Hsingle.
  - apply latency_inv in Hrun as (_ & _ & -> & ->).
    exists n, h, m, s. eexists. split; [reflexivity|].
    simpl. rewrite lookup_insert_eq. split; [reflexivity|].
    split; [reflexivity|].
    rewrite latency_instrumentation_run by reflexivity.
    right. right. eauto.
  - factory_inv Hrun.
    exists n, h, m, s. eexists. split; [reflexivity|].
    simpl. rewrite lookup_insert_eq. split; [reflexivity|].
    split; [reflexivity|].
    rewrite request_size_instrumentation_run by reflexivity.
    destruct (request_cl info) as [v|]; [|left; reflexivity].
    destruct (PyInt.parse v); right; [right|left]; eauto.
  - factory_inv Hrun.
    exists n, h, m, s. eexists. split; [reflexivity|].
    simpl. rewrite lookup_insert_eq. split; [reflexivity|].
    split; [reflexivity|].
    rewrite response_size_instrumentation_run by reflexivity.
    destruct (response info); [|right; left; eauto].
    destruct (response_cl info) as [v|]; [|left; reflexivity].
    destruct (PyInt.parse v); right; [right|left]; eauto.
  - factory_inv Hrun.
    exists n, h, m, s. eexists. split; [reflexivity|].
    simpl. rewrite lookup_insert_eq. split; [reflexivity|].
    split; [reflexivity|].
    destruct (response info) as [r|] eqn:Hr.
    + rewrite (combined_size_instrumentation_run _ h m s info r) by easy.
      destruct (combined_content_length _ _) as [[k|]|e].
      * right. right. eauto.
      * left. reflexivity.
      * right. left. eauto.
    + rewrite combined_size_instrumentation_no_response by exact Hr.
      right. left. eauto.
Qed.

(** X4: an invocation of a closure of [latency], [request_size],
    [response_size] or [combined_size] never touches the registry, writes
    at most one sample, writes it to the collector of its own factory and
    with as many label values as that collector has label names, and
    writes nothing at all when it raises. *)
Theorem single_closure_writes_own_collector_once
    (c : factory_call) (st0 st1 : state) (f : Info -> M unit)
    (info : Info) (st : state) :
  single_metric c = true ->
  run_call c st0 = (st1, Ok f) ->
  let st' := fst (f info st) in
  registry st' = registry st /\
  (snd (f info st) <> Ok tt -> st' = st) /\
  (st' = st \/
   exists w C,
     st' = recorded st w /\ call_names c = [target w] /\
     registry st1 !! target w = Some C /\
     length (labelvalues w) = length (labelnames C)) /\
  (forall other, other ∉ call_names c ->
                 samples other st' = samples other st).
Proof.
  intros Hsingle Hrun st'. subst st'.
  destruct (single_closure_outcome c st0 st1 f info st Hsingle Hrun)
    as (n & h & m & s & C & Hnames & HC & Hlab & [Hout|[(e & Hout)|(v & Hout)]]);
    rewrite Hout; simpl.
  - repeat split; auto.
  - repeat split; auto.
  - split; [reflexivity|]. split; [intros H; now contradiction H|].
    split.
    + right. eexists. exists C. split; [reflexivity|]. simpl.
      rewrite Hlab. split; [exact Hnames|]. split; [exact HC|].
      apply configured_label_values_length.
    + intros other Hother. rewrite samples_recorded. simpl.
      rewrite Hnames in Hother.
      destruct (decide (n = other)) as [->|_]; [|apply app_nil_r].
      exfalso. apply Hother. left.
Qed.

(** A failing and a recording invocation of the [combined_size] closure. *)
Lemma single_closure_writes_own_collector_once_witness :
  let c := CallCombinedSize default_combined_size_name
             "Content bytes of requests and responses." true true true in
  let st1 := state_after (run_call c) empty_state in
  let f := closure_of (run_call c) empty_state in
  fst (f (sample_info (content_length "abc") (Some [])) st1) = st1 /\
  registry (fst (f (sample_info (content_length "7") (Some [])) st1)) =
    registry st1.
Proof.
  intros c st1 f. split.
  - refine (proj1 (proj2 (single_closure_writes_own_collector_once c
                     empty_state st1 f
                     (sample_info (content_length "abc") (Some [])) st1
                     eq_refl eq_refl)) _).
    discriminate.
  - exact (proj1 (single_closure_writes_own_collector_once c
                     empty_state st1 f
                     (sample_info (content_length "7") (Some [])) st1
                     eq_refl eq_refl)).
Defined.

(** ** The closure of [full], update by update *)

Ltac flatten_writes :=
  unfold recorded, recorded_all; cbn [registry writes];
  rewrite <- ?app_assoc; reflexivity.

Lemma full_closure_progress (hb lb : list number) (info : Info) (st : state) :
  exists ws out,
    full_closure hb lb info st = (recorded_all st ws, out) /\
    full_progress hb lb info ws out.
Proof.
  rewrite full_closure_run. cbv zeta.
  destruct (int_of_header_or_zero (request_cl info)) as [n|e].
  2:{ eexists; eexists; split; [reflexivity|apply StopAfterTotal]. }
  destruct (n <? 0) eqn:Hn.
  { eexists; eexists; split; [reflexivity|apply StopAfterTotal]. }
  apply Z.ltb_ge in Hn.
  destruct (response info).
  2:{ exists [inc_write total_counter 1; inc_write in_size_counter n].
      eexists. split; [|now apply StopAfterIn].
      flatten_writes. }
  destruct (int_of_header_or_zero (response_cl info)) as [k|e].
  2:{ exists [inc_write total_counter 1; inc_write in_size_counter n].
      eexists. split; [|now apply StopAfterIn].
      flatten_writes. }
  destruct (k <? 0) eqn:Hk.
  { exists [inc_write total_counter 1; inc_write in_size_counter n].
    eexists. split; [|now apply StopAfterIn].
    flatten_writes. }
  apply Z.ltb_ge in Hk.
  exists (full_writes hb lb info n k), (Ok tt).
  split; [|now apply RunThrough].
  flatten_writes.
Qed.

(** X5: an invocation of the [full] closure updates its collectors in the
    order they were created and never skips one: the writes it makes are
    the first one, the first two or all five of (requests, incoming bytes,
    outgoing bytes, high-resolution latency, low-resolution latency).  It
    returns normally exactly when all five were made, and it never touches
    the registry. *)
Theorem full_closure_writes_in_order
    (hb lb : list number) (st0 st1 : state) (f : Info -> M unit)
    (info : Info) (st : state) :
  full hb lb st0 = (st1, Ok f) ->
  exists ws k,
    fst (f info st) = recorded_all st ws /\
    map target ws = take k full_names /\
    (k = 1 \/ k = 2 \/ k = 5)%nat /\
    (snd (f info st) = Ok tt <-> k = 5%nat) /\
    registry (fst (f info st)) = registry st.
Proof.
  intros Hf. apply full_inv in Hf as (_ & _ & _ & _ & ->).
  destruct (full_closure_progress hb lb info st) as (ws & out & Hrun & Hp).
  rewrite Hrun. exists ws.
  destruct Hp as [e|n e Hn|n k Hn Hk].
  - exists 1%nat. simpl. repeat split; auto; discriminate.
  - exists 2%nat. simpl. repeat split; auto; discriminate.
  - exists 5%nat. simpl. repeat split; auto.
Qed.

(** A request with an unreadable length: one write, then the failure. *)
Lemma full_closure_writes_in_order_witness :
  let ful := full default_latency_highr_buckets default_latency_lowr_buckets in
  let st1 := state_after ful empty_state in
  let f := closure_of ful empty_state in
  exists ws k,
    fst (f (sample_info (content_length "abc") (Some [])) st1) =
      recorded_all st1 ws /\
    map target ws = take k full_names /\
    (k = 1 \/ k = 2 \/ k = 5)%nat /\
    (snd (f (sample_info (content_length "abc") (Some [])) st1) = Ok tt
     <-> k = 5%nat) /\
    registry (fst (f (sample_info (content_length "abc") (Some [])) st1)) =
      registry st1.
Proof.
  intros ful st1 f.
  exact (full_closure_writes_in_order default_latency_highr_buckets
           default_latency_lowr_buckets empty_state st1 f
           (sample_info (content_length "abc") (Some [])) st1 eq_refl).
Defined.

(** X6: on an [Info] with a response, whose [Content-Length] headers are
    each absent or a non-negative numeral, the [full] closure makes all
    five updates and returns: 1 on the request counter, the two lengths
    (0 for an absent header) on the byte counters, and the duration on both
    histograms, the low-resolution one under the label values
    (method, status, handler) in that order. *)
Theorem full_closure_five_updates
    (hb lb : list number) (st0 st1 : state) (f : Info -> M unit)
    (info : Info) (n_in n_out : Z) (st : state) :
  full hb lb st0 = (st1, Ok f) ->
  response info <> None ->
  int_of_header_or_zero (request_cl info) = Ok n_in -> 0 <= n_in ->
  int_of_header_or_zero (response_cl info) = Ok n_out -> 0 <= n_out ->
  f info st = (recorded_all st (full_writes hb lb info n_in n_out), Ok tt) /\
  map target (full_writes hb lb info n_in n_out) = full_names /\
  map amount (full_writes hb lb info n_in n_out) =
    [NInt 1; NInt n_in; NInt n_out;
     NFloat (modified_duration info); NFloat (modified_duration info)] /\
  map labelvalues (full_writes hb lb info n_in n_out) =
    [[]; []; []; [];
     [OStr (method info); OStr (modified_status info);
      OStr (modified_handler info)]].
Proof.
  intros Hf Hr Hin Hpin Hout Hpout.
  apply full_inv in Hf as (_ & _ & _ & _ & ->).
  split; [|repeat split].
  rewrite full_closure_run, Hin, Hout. cbv zeta.
  destruct (n_in <? 0) eqn:H1; [lia|].
  destruct (n_out <? 0) eqn:H2; [lia|].
  destruct (response info); [|contradiction].
  flatten_writes.
Qed.

(** A request of 100 bytes answered without a [Content-Length]. *)
Lemma full_closure_five_updates_witness :
  let ful := full default_latency_highr_buckets default_latency_lowr_buckets in
  let st1 := state_after ful empty_state in
  let info := sample_info (content_length "100") (Some []) in
  closure_of ful empty_state info st1 =
    (recorded_all st1
       (full_writes default_latency_highr_buckets default_latency_lowr_buckets
          info 100 0), Ok tt).
Proof.
  intros ful st1 info.
  refine (proj1 (full_closure_five_updates default_latency_highr_buckets
                   default_latency_lowr_buckets empty_state st1
                   (closure_of ful empty_state) info 100 0 st1
                   eq_refl _ eq_refl _ eq_refl _));
    discriminate.
Defined.

(** ** Counting over many invocations *)

Lemma samples_recorded_all (metric : string) (st : state) (ws : list write) :
  samples metric (recorded_all st ws) =
  samples metric st ++ filter (fun w => target w = metric) ws.
Proof. unfold samples, recorded_all. simpl. apply filter_app. Qed.

Lemma sample_count_recorded_all (metric : string) (st : state)
    (ws : list write) :
  sample_count metric (recorded_all st ws) =
  (sample_count metric st +
   length (filter (fun w => target w = metric) ws))%nat.
Proof.
  unfold sample_count. rewrite samples_recorded_all. apply length_app.
Qed.

Lemma invoke_all_cons (f : Info -> M unit) (info : Info) (infos : list Info)
    (st : state) :
  invoke_all f (info :: infos) st = invoke_all f infos (fst (f info st)).
Proof. reflexivity. Qed.

Lemma full_closure_counts (hb lb : list number) (info : Info) (st : state) :
  exists k_in k_out,
    (k_out <= k_in <= 1)%nat /\
    (snd (full_closure hb lb info st) = Ok tt <-> k_out = 1%nat) /\
    counts_grew st (fst (full_closure hb lb info st)) 1 k_in k_out.
Proof.
  destruct (full_closure_progress hb lb info st) as (ws & out & Hrun & Hp).
  rewrite Hrun. cbn [fst snd]. unfold counts_grew.
  rewrite !sample_count_recorded_all.
  destruct Hp as [e|n e Hn|n k Hn Hk].
  - exists 0%nat, 0%nat. simpl. repeat split; try lia; try discriminate.
  - exists 1%nat, 0%nat. simpl. repeat split; try lia; try discriminate.
  - exists 1%nat, 1%nat. simpl. repeat split; lia.
Qed.

(** X7: over any sequence of invocations of the [full] closure, failed
    ones included, [http_requests_total] receives exactly one increment of
    1 per invocation, so its value grows by the number of invocations.  The
    outgoing-bytes counter and the two latency histograms receive one
    sample per invocation that returned, all three the same number, and the
    incoming-bytes counter at least as many and at most one per
    invocation. *)
Theorem full_counts_over_invocations
    (hb lb : list number) (st0 st1 : state) (f : Info -> M unit)
    (infos : list Info) (st : state) :
  full hb lb st0 = (st1, Ok f) ->
  let st' := invoke_all f infos st in
  counter_value "http_requests_total" st' =
    counter_value "http_requests_total" st + Z.of_nat (length infos) /\
  exists k_in k_out,
    (k_out <= k_in <= length infos)%nat /\
    counts_grew st st' (length infos) k_in k_out.
Proof.
  intros Hf. apply full_inv in Hf as (_ & _ & _ & _ & ->). cbv zeta.
  revert st. induction infos as [|info infos IH]; intros st.
  - simpl. split; [lia|]. exists 0%nat, 0%nat. unfold counts_grew.
    repeat split; lia.
  - rewrite invoke_all_cons.
    destruct (IH (fst (full_closure hb lb info st)))
      as (Hval & k_in & k_out & Hle & Hc).
    destruct (full_closure_counts hb lb info st)
      as (j_in & j_out & Hj & _ & Hc1).
    split.
    + rewrite Hval.
      destruct (full_closure_progress hb lb info st) as (ws & out & Hrun & Hp).
      rewrite Hrun. cbn [fst]. unfold counter_value.
      rewrite samples_recorded_all.
      rewrite counter_value_app.
      destruct Hp; simpl length; simpl; change (int_amount (inc_write total_counter 1)) with 1; lia.
    + exists (j_in + k_in)%nat, (j_out + k_out)%nat.
      unfold counts_grew in *. simpl length.
      destruct Hc as (H1 & H2 & H3 & H4 & H5).
      destruct Hc1 as (G1 & G2 & G3 & G4 & G5).
      rewrite H1, H2, H3, H4, H5, G1, G2, G3, G4, G5.
      repeat split; lia.
Qed.

(** Three requests, the second with an unreadable length, the third without
    a response: three increments of the request counter. *)
Lemma full_counts_over_invocations_witness :
  let ful := full default_latency_highr_buckets default_latency_lowr_buckets in
  let st1 := state_after ful empty_state in
  let infos := [ sample_info (content_length "100") (Some []);
                 sample_info (content_length "abc") (Some []);
                 sample_info [] None ] in
  counter_value "http_requests_total"
    (invoke_all (closure_of ful empty_state) infos st1) = 3.
Proof.
  intros ful st1 infos.
  exact (proj1 (full_counts_over_invocations default_latency_highr_buckets
                  default_latency_lowr_buckets empty_state st1
                  (closure_of ful empty_state) infos st1 eq_refl)).
Defined.

(** ** When a factory call goes through *)

Lemma run_call_single_inv (c : factory_call) (st st1 : state)
    (f : Info -> M unit) :
  single_metric c = true ->
  run_call c st = (st1, Ok f) ->
  exists n C,
    call_names c = [n] /\ registry st !! n = None /\
    st1 = {| registry := <[n := C]> (registry st); writes := writes st |} /\
    name C = n /\ kind C = call_kind c /\
    labelnames C = call_label_names c /\
    (kind C = KSummary -> upper_bounds C = []).
Proof.
  intros Hsingle Hrun.
  destruct c as [n d h m s b|n d h m s|n d h m s|n d h m s|hb lb];
    simpl in *; try discriminate; clear Hsingle.
  - apply latency_inv in Hrun as (_ & Hfresh & -> & _).
    exists n. eexists. repeat split; try exact Hfresh. discriminate.
  - factory_inv Hrun. exists n. eexists. repeat split; assumption.
  - factory_inv Hrun. exists n. eexists. repeat split; assumption.
  - factory_inv Hrun. exists n. eexists. repeat split; assumption.
Qed.



(** X9: with an empty bucket tuple a factory raises the index error of
    [buckets[-1]] before it constructs anything: the state is left as it
    was, no collector of [full] is registered even when only the second
    tuple is empty, and a taken name goes unreported. *)
Theorem empty_bucket_tuple_raises_first (c : factory_call) (st : state) :
  ~ call_buckets_ok c ->
  run_call c st = (st, Raise IndexError).
Proof.
  intros Hbad. destruct (call_buckets_ok_dec c) as [Hok|Hrun].
  - contradiction.
  - apply Hrun.
Qed.

(** [full] with high-resolution buckets and an empty low-resolution tuple. *)
Lemma empty_bucket_tuple_raises_first_witness :
  run_call (CallFull default_latency_highr_buckets []) empty_state =
  (empty_state, Raise IndexError).
Proof.
  apply empty_bucket_tuple_raises_first. simpl. intros [_ H]. now apply H.
Defined.

(** X10: a successful call of [latency], [request_size], [response_size]
    or [combined_size] adds exactly one collector to the registry, under
    the metric name, a histogram for [latency] and a bucketless summary for
    the others, with the resolved label names whichever branch of
    [if label_names] constructed it; every other entry of the registry
    stays, and no sample is written. *)
Theorem single_factory_registers_one_collector
    (c : factory_call) (st st1 : state) (f : Info -> M unit) :
  single_metric c = true ->
  run_call c st = (st1, Ok f) ->
  exists n C,
    call_names c = [n] /\
    registry st !! n = None /\
    registry st1 !! n = Some C /\
    (forall other, other <> n -> registry st1 !! other = registry st !! other) /\
    size (registry st1) = S (size (registry st)) /\
    name C = n /\ kind C = call_kind c /\
    labelnames C = call_label_names c /\
    (kind C = KSummary -> upper_bounds C = []) /\
    writes st1 = writes st.
Proof.
  intros Hsingle Hrun.
  destruct (run_call_single_inv c st st1 f Hsingle Hrun)
    as (n & C & Hnames & Hfresh & -> & Hname & Hkind & Hlab & Hb).
  exists n, C. simpl.
  split; [exact Hnames|]. split; [exact Hfresh|].
  split; [apply lookup_insert_eq|].
  split; [intros other Hne; now apply lookup_insert_ne|].
  split; [now apply map_size_insert_None|].
  repeat split; assumption.
Qed.

(** [request_size] with the method label alone, on the empty registry. *)
Lemma single_factory_registers_one_collector_witness :
  let c := CallRequestSize default_request_size_name
             "Content bytes of requests." false true false in
  exists n C,
    call_names c = [n] /\
    registry empty_state !! n = None /\
    registry (state_after (run_call c) empty_state) !! n = Some C /\
    (forall other, other <> n ->
       registry (state_after (run_call c) empty_state) !! other =
       registry empty_state !! other) /\
    size (registry (state_after (run_call c) empty_state)) =
      S (size (registry empty_state)) /\
    name C = n /\ kind C = call_kind c /\
    labelnames C = call_label_names c /\
    (kind C = KSummary -> upper_bounds C = []) /\
    writes (state_after (run_call c) empty_state) = writes empty_state.
Proof.
  intros c.
  exact (single_factory_registers_one_collector c empty_state
           (state_after (run_call c) empty_state)
           (closure_of (run_call c) empty_state) eq_refl eq_refl).
Defined.

(** ** Infinity given or left out *)

Lemma closed_buckets_snoc_inf (b : list number) :
  closed_buckets (b ++ [float_inf]) = b ++ [float_inf].
Proof. unfold closed_buckets. rewrite last_snoc. reflexivity. Qed.

Lemma closed_buckets_open (b : list number) :
  b <> [] -> last b <> Some float_inf ->
  closed_buckets b = b ++ [float_inf].
Proof.
  intros Hb Hlast. destruct (closed_buckets_closes b Hb) as (_ & _ & H).
  now apply H.
Qed.

Lemma tuple_last_snoc (b : list number) (x : number) :
  tuple_last (b ++ [x]) = Ok x.
Proof. unfold tuple_last. now rewrite last_snoc. Qed.

(** X11: whether the caller ends a bucket tuple with positive infinity or
    leaves it out makes no difference: [latency] and [full] called with a
    non-empty tuple and with the same tuple followed by infinity leave the
    same state and return the same closure. *)
Theorem infinity_given_or_left_out
    (metric_name metric_doc : string) (h m s : bool)
    (b other : list number) (st : state) :
  b <> [] -> last b <> Some float_inf ->
  latency metric_name metric_doc h m s (b ++ [float_inf]) st =
    latency metric_name metric_doc h m s b st /\
  full (b ++ [float_inf]) other st = full b other st /\
  full other (b ++ [float_inf]) st = full other b st.
Proof.
  intros Hb Hlast.
  destruct (tuple_last_cons b Hb) as (x & Hx & _).
  pose proof (closed_buckets_open b Hb Hlast) as Hopen.
  split; [|split].
  - rewrite !latency_run, tuple_last_snoc, Hx.
    now rewrite closed_buckets_snoc_inf, Hopen.
  - rewrite !full_run, tuple_last_snoc, Hx.
    unfold full_collectors, full_closure.
    now rewrite closed_buckets_snoc_inf, Hopen.
  - rewrite !full_run, tuple_last_snoc, Hx.
    unfold full_collectors, full_closure.
    now rewrite closed_buckets_snoc_inf, Hopen.
Qed.

(** The default low-resolution tuple (0.1, 0.5, 1), with and without
    infinity. *)
Lemma infinity_given_or_left_out_witness :
  latency default_latency_name "Duration of HTTP requests in seconds"
          true true true (default_latency_lowr_buckets ++ [float_inf])
          empty_state =
  latency default_latency_name "Duration of HTTP requests in seconds"
          true true true default_latency_lowr_buckets empty_state.
Proof.
  refine (proj1 (infinity_given_or_left_out _ _ true true true
                   default_latency_lowr_buckets [] empty_state _ _));
    discriminate.
Defined.

(** ** [combined_size] against [request_size] and [response_size] *)

Lemma added_recorded (metric : string) (lv : list pyobj) (n : Z)
    (st : state) (r : result unit) :
  added metric st
    (recorded st {| target := metric; labelvalues := lv; amount := NInt n |},
     r) = n.
Proof.
  unfold added. simpl. rewrite counter_value_recorded. simpl.
  destruct (decide (metric = metric)); [|contradiction].
  unfold int_amount. simpl. lia.
Qed.

Lemma added_nothing (metric : string) (st : state) (r : result unit) :
  added metric st (st, r) = 0.
Proof. unfold added. simpl. lia. Qed.

(** X12: on an [Info] with a response, whose [Content-Length] headers are
    each absent or a numeral, the [combined_size] closure adds to its
    summary what the [request_size] and the [response_size] closures
    together add to theirs, and it records a sample exactly when one of the
    two does. *)
Theorem combined_size_adds_request_and_response
    (nq dq ns ds nc dc : string) (hq mq sq hs ms ss hc mc sc : bool)
    (stq sts stc stq' sts' stc' : state) (fq fs fc : Info -> M unit)
    (info : Info) (st : state) :
  request_size nq dq hq mq sq stq = (stq', Ok fq) ->
  response_size ns ds hs ms ss sts = (sts', Ok fs) ->
  combined_size nc dc hc mc sc stc = (stc', Ok fc) ->
  response info <> None ->
  (forall v, request_cl info = Some v -> is_Some (PyInt.parse v)) ->
  (forall v, response_cl info = Some v -> is_Some (PyInt.parse v)) ->
  added nc st (fc info st) =
    added nq st (fq info st) + added ns st (fs info st) /\
  (fst (fc info st) = st <->
   fst (fq info st) = st /\ fst (fs info st) = st) /\
  snd (fc info st) = Ok tt.
Proof.
  intros Hq Hs Hc Hresp Hvq Hvs.
  factory_inv Hq. factory_inv Hs. factory_inv Hc.
  destruct (response info) as [r|] eqn:Hr; [clear Hresp | contradiction].
  rewrite request_size_instrumentation_run by reflexivity.
  rewrite response_size_instrumentation_run by reflexivity.
  rewrite (combined_size_instrumentation_run _ hc mc sc info r) by easy.
  rewrite Hr. unfold combined_content_length, int_of_header, int_of_str.
  assert (Hgrow : forall w, recorded st w = st -> False).
  { intros w H. apply (f_equal writes) in H. simpl in H.
    apply (f_equal length) in H. rewrite length_app in H. simpl in H. lia. }
  destruct (request_cl info) as [vq|] eqn:Eq;
    destruct (response_cl info) as [vs|] eqn:Es.
  - destruct (Hvq vq eq_refl) as [a Ha]. destruct (Hvs vs eq_refl) as [b Hb].
    rewrite (parse_truthy _ _ Ha), (parse_truthy _ _ Hb), Ha, Hb. simpl.
    rewrite !added_recorded. split; [reflexivity|]. split; [|reflexivity].
    split; [intros H; now apply Hgrow in H|].
    intros [H _]. now apply Hgrow in H.
  - destruct (Hvq vq eq_refl) as [a Ha].
    rewrite (parse_truthy _ _ Ha), Ha. simpl.
    rewrite !added_recorded, added_nothing.
    split; [lia|]. split; [|reflexivity].
    split; [intros H; now apply Hgrow in H|].
    intros [H _]. now apply Hgrow in H.
  - destruct (Hvs vs eq_refl) as [b Hb].
    rewrite (parse_truthy _ _ Hb), Hb. simpl.
    rewrite !added_recorded, added_nothing.
    split; [lia|]. split; [|reflexivity].
    split; [intros H; now apply Hgrow in H|].
    intros [_ H]. now apply Hgrow in H.
  - simpl. rewrite !added_nothing. repeat split; reflexivity.
Qed.

(** 100 bytes in, 50 bytes out: 150 on the combined summary. *)
Lemma combined_size_adds_request_and_response_witness :
  let rq := request_size default_request_size_name "Content bytes of requests."
                         true true true in
  let rs := response_size default_response_size_name
                          "Content bytes of responses." true true true in
  let cs := combined_size default_combined_size_name
                          "Content bytes of requests and responses."
                          true true true in
  let info := sample_info (content_length "100") (Some (content_length "50")) in
  added default_combined_size_name empty_state
    (closure_of cs empty_state info empty_state) =
  added default_request_size_name empty_state
    (closure_of rq empty_state info empty_state) +
  added default_response_size_name empty_state
    (closure_of rs empty_state info empty_state).
Proof.
  intros rq rs cs info.
  refine (proj1 (combined_size_adds_request_and_response
                   _ _ _ _ _ _ true true true true true true true true true
                   empty_state empty_state empty_state
                   (state_after rq empty_state) (state_after rs empty_state)
                   (state_after cs empty_state)
                   (closure_of rq empty_state) (closure_of rs empty_state)
                   (closure_of cs empty_state) info empty_state
                   eq_refl eq_refl eq_refl _ _ _)).
  - discriminate.
  - intros v Hv. inversion Hv. eexists. reflexivity.
  - intros v Hv. inversion Hv. eexists. reflexivity.
Defined.

(** ** A call of [full] that fails half way *)

Lemma register_seq_stops (cs : list collector) (st : state) (n : string) :
  snd (register_seq cs st) = Some n ->
  exists k,
    map name cs !! k = Some n /\
    Forall (fun c => registry st !! name c = None) (take k cs) /\
    fst (register_seq cs st) =
      {| registry := registered_all (take k cs) (registry st);
         writes := writes st |}.
Proof.
  revert st. induction cs as [|c cs IH]; intros st; simpl.
  - discriminate.
  - destruct (registry st !! name c) eqn:Hc; simpl.
    + intros H. inversion H; subst. exists 0%nat. simpl.
      repeat split; [constructor|]. destruct st; reflexivity.
    + intros H. destruct (IH _ H) as (k & Hk & Hfree & Hst).
      exists (S k). simpl. split; [exact Hk|]. split; [|exact Hst].
      constructor; [exact Hc|].
      eapply Forall_impl; [exact Hfree|]. simpl. intros c' Hc'.
      apply lookup_insert_None in Hc'. tauto.
Qed.

(** X13: [full] constructs its collectors one after the other and undoes
    nothing.  When it fails on a taken name, that name is the first of its
    five, in order, that was registered before; the collectors that come
    before it in the order are registered by the failed call and stay
    registered, the ones after it are not constructed, and no sample is
    written. *)
Theorem full_failure_keeps_earlier_collectors
    (hb lb : list number) (st st2 : state) (n : string) :
  full hb lb st = (st2, Raise (ValueError (DuplicatedTimeseries n))) ->
  exists k,
    full_names !! k = Some n /\
    registered n st /\
    Forall (fun m => registry st !! m = None) (take k full_names) /\
    registry st2 =
      registered_all (take k (full_collectors hb lb)) (registry st) /\
    Forall (fun m => registered m st2) (take k full_names) /\
    (forall m, m ∈ drop (S k) full_names ->
               registry st2 !! m = registry st !! m) /\
    writes st2 = writes st.
Proof.
  rewrite full_run.
  destruct (tuple_last hb) as [x|e] eqn:Hx.
  2:{ intros H. inversion H; subst.
      unfold tuple_last in Hx. destruct (last hb); discriminate. }
  destruct (tuple_last lb) as [y|e] eqn:Hy.
  2:{ intros H. inversion H; subst.
      unfold tuple_last in Hy. destruct (last lb); discriminate. }
  destruct (register_seq (full_collectors hb lb) st) as [st' [n'|]] eqn:Hseq;
    [|discriminate].
  intros H. inversion H; subst. clear H.
  assert (Hsnd : snd (register_seq (full_collectors hb lb) st) = Some n)
    by now rewrite Hseq.
  destruct (register_seq_stops _ _ _ Hsnd) as (k & Hk & Hfree & Hst).
  destruct (register_seq_first_taken _ _ _ (full_names_NoDup hb lb) Hsnd)
    as (_ & Hreg).
  rewrite Hseq in Hst. simpl in Hst. subst st2.
  exists k. simpl registry. simpl writes.
  change (map name (full_collectors hb lb)) with full_names in Hk.
  split; [exact Hk|]. split; [exact Hreg|].
  assert (Hk5 : (k < 5)%nat).
  { apply lookup_lt_Some in Hk. exact Hk. }
  split; [|split; [reflexivity|split; [|split; [|reflexivity]]]].
  - unfold full_collectors, full_names in *.
    do 5 (destruct k as [|k]; [simpl in *;
            repeat (apply Forall_cons in Hfree as [? Hfree]);
            repeat constructor; assumption|]).
    lia.
  - unfold full_collectors, full_names, registered, registered_all.
    do 5 (destruct k as [|k]; [simpl;
            repeat constructor; by simplify_map_eq|]).
    lia.
  - intros m Hm. unfold full_collectors, full_names, registered_all in *.
    do 5 (destruct k as [|k]; [simpl in *;
            rewrite ?elem_of_cons, ?elem_of_nil in Hm;
            intuition (subst; by simplify_map_eq)|]).
    lia.
Qed.

(** The outgoing-bytes name taken by a histogram: [full] registers its two
    first counters and fails on the third. *)
Lemma full_failure_keeps_earlier_collectors_witness :
  let st := state_after
              (latency "http_out_bytes_total" "Outgoing bytes." false false
                       false default_latency_lowr_buckets) empty_state in
  let ful := full default_latency_highr_buckets default_latency_lowr_buckets in
  exists k,
    full_names !! k = Some "http_out_bytes_total" /\
    registered "http_out_bytes_total" st /\
    Forall (fun m => registry st !! m = None) (take k full_names) /\
    registry (state_after ful st) =
      registered_all
        (take k (full_collectors default_latency_highr_buckets
                                 default_latency_lowr_buckets))
        (registry st) /\
    Forall (fun m => registered m (state_after ful st)) (take k full_names) /\
    (forall m, m ∈ drop (S k) full_names ->
               registry (state_after ful st) !! m = registry st !! m) /\
    writes (state_after ful st) = writes st.
Proof.
  intros st ful.
  exact (full_failure_keeps_earlier_collectors default_latency_highr_buckets
           default_latency_lowr_buckets st (state_after ful st)
           "http_out_bytes_total" eq_refl).
Defined.

(** ** Totals over many invocations *)

Lemma recorded_all_nil (st : state) : recorded_all st [] = st.
Proof. destruct st. unfold recorded_all. simpl. now rewrite app_nil_r. Qed.

Lemma recorded_all_app (st : state) (ws ws' : list write) :
  recorded_all (recorded_all st ws) ws' = recorded_all st (ws ++ ws').
Proof. unfold recorded_all. simpl. now rewrite app_assoc. Qed.

Lemma counter_value_recorded_all (metric : string) (st : state)
    (ws : list write) :
  counter_value metric (recorded_all st ws) =
  counter_value metric st +
  foldr (fun w acc => int_amount w + acc) 0
        (filter (fun w => target w = metric) ws).
Proof.
  unfold counter_value. rewrite samples_recorded_all. apply counter_value_app.
Qed.

(** X14: the [latency] closure never fails and never skips: after any
    sequence of invocations the state holds, after what was there, exactly
    one sample per [Info], in the order of the invocations, each with the
    duration and the configured label values of its [Info]. *)
Theorem latency_samples_over_invocations
    (metric_name metric_doc : string) (h m s : bool) (b : list number)
    (st0 st1 : state) (f : Info -> M unit) (infos : list Info) (st : state) :
  latency metric_name metric_doc h m s b st0 = (st1, Ok f) ->
  invoke_all f infos st =
    recorded_all st (map (latency_write metric_name h m s) infos) /\
  samples metric_name (invoke_all f infos st) =
    samples metric_name st ++ map (latency_write metric_name h m s) infos /\
  sample_count metric_name (invoke_all f infos st) =
    (sample_count metric_name st + length infos)%nat.
Proof.
  intros Hf. apply latency_inv in Hf as (_ & _ & _ & ->).
  assert (Hall : forall st,
             invoke_all
               (latency_instrumentation
                  (histogram_collector metric_name metric_doc h m s
                     (closed_buckets b))
                  (fst (_build_label_attribute_names h m s))
                  (snd (_build_label_attribute_names h m s))) infos st =
             recorded_all st (map (latency_write metric_name h m s) infos)).
  { induction infos as [|info infos IH]; intros st'.
    - simpl. now rewrite recorded_all_nil.
    - rewrite invoke_all_cons.
      rewrite latency_instrumentation_run by reflexivity.
      cbn [fst]. rewrite IH. unfold recorded, recorded_all. simpl.
      now rewrite <- app_assoc. }
  assert (Hown : filter (fun w => target w = metric_name)
                   (map (latency_write metric_name h m s) infos) =
                 map (latency_write metric_name h m s) infos).
  { clear. induction infos as [|info infos IH]; [reflexivity|].
    simpl. rewrite filter_cons. simpl.
    destruct (decide (metric_name = metric_name)); [|contradiction].
    now rewrite IH. }
  rewrite Hall. split; [reflexivity|]. split.
  - now rewrite samples_recorded_all, Hown.
  - rewrite sample_count_recorded_all, Hown. now rewrite length_map.
Qed.

(** Two requests on the unlabelled histogram. *)
Lemma latency_samples_over_invocations_witness :
  let lat := latency default_latency_name "Duration of HTTP requests in seconds"
                     false false false default_latency_lowr_buckets in
  let st1 := state_after lat empty_state in
  sample_count default_latency_name
    (invoke_all (closure_of lat empty_state)
       [sample_info [] None; sample_info [] (Some [])] st1) = 2%nat.
Proof.
  intros lat st1.
  exact (proj2 (proj2 (latency_samples_over_invocations _ _ false false false
                         default_latency_lowr_buckets empty_state st1
                         (closure_of lat empty_state)
                         [sample_info [] None; sample_info [] (Some [])]
                         st1 eq_refl))).
Defined.

Lemma full_closure_well_announced (hb lb : list number) (info : Info)
    (st : state) :
  well_announced info ->
  full_closure hb lb info st =
  (recorded_all st
     (full_writes hb lb info (announced (request_cl info))
        (announced (response_cl info))), Ok tt).
Proof.
  intros (Hr & (a & Ha & Hpa) & (b & Hb & Hpb)).
  rewrite full_closure_run. unfold announced. rewrite Ha, Hb. cbv zeta.
  destruct (a <? 0) eqn:H1; [lia|].
  destruct (b <? 0) eqn:H2; [lia|].
  destruct (response info); [|contradiction].
  flatten_writes.
Qed.

(** X15: over a sequence of invocations of the [full] closure on requests
    that each have a response and whose [Content-Length] headers are each
    absent or a non-negative numeral, every invocation returns, the
    incoming-bytes counter grows by the sum of the request lengths, the
    outgoing-bytes counter by the sum of the response lengths (0 for an
    absent header), and each latency histogram receives one sample per
    invocation. *)
Theorem full_byte_totals_over_invocations
    (hb lb : list number) (st0 st1 : state) (f : Info -> M unit)
    (infos : list Info) (st : state) :
  full hb lb st0 = (st1, Ok f) ->
  Forall well_announced infos ->
  let st' := invoke_all f infos st in
  counter_value "http_in_bytes_total" st' =
    counter_value "http_in_bytes_total" st +
    total_of (fun info => announced (request_cl info)) infos /\
  counter_value "http_out_bytes_total" st' =
    counter_value "http_out_bytes_total" st +
    total_of (fun info => announced (response_cl info)) infos /\
  sample_count "http_highr_request_duration_seconds" st' =
    (sample_count "http_highr_request_duration_seconds" st +
     length infos)%nat /\
  sample_count "http_lowr_request_duration_seconds" st' =
    (sample_count "http_lowr_request_duration_seconds" st +
     length infos)%nat /\
  Forall (fun info => forall st2, snd (f info st2) = Ok tt) infos.
Proof.
  intros Hf Hall. apply full_inv in Hf as (_ & _ & _ & _ & ->). cbv zeta.
  revert st. induction Hall as [|info infos Hinfo Hall IH]; intros st.
  - simpl. repeat split; try lia. constructor.
  - rewrite invoke_all_cons.
    rewrite (full_closure_well_announced hb lb info st Hinfo). cbn [fst].
    destruct (IH (recorded_all st
                    (full_writes hb lb info (announced (request_cl info))
                       (announced (response_cl info)))))
      as (Hin & Hout & Hh & Hl & Hret).
    rewrite Hin, Hout, Hh, Hl.
    rewrite !counter_value_recorded_all, !sample_count_recorded_all.
    simpl. unfold int_amount. simpl.
    repeat split; try lia.
    constructor; [|exact Hret].
    intros st2. now rewrite (full_closure_well_announced hb lb info st2 Hinfo).
Qed.

(** 100 bytes in and 50 out, then 20 bytes in and an unannounced answer. *)
Lemma full_byte_totals_over_invocations_witness :
  let ful := full default_latency_highr_buckets default_latency_lowr_buckets in
  let st1 := state_after ful empty_state in
  let infos := [ sample_info (content_length "100")
                             (Some (content_length "50"));
                 sample_info (content_length "20") (Some []) ] in
  counter_value "http_in_bytes_total"
    (invoke_all (closure_of ful empty_state) infos st1) = 120 /\
  counter_value "http_out_bytes_total"
    (invoke_all (closure_of ful empty_state) infos st1) = 50.
Proof.
  intros ful st1 infos.
  assert (Hwell : Forall well_announced infos).
  { repeat constructor; try discriminate;
      eexists; (split; [reflexivity | discriminate]). }
  destruct (full_byte_totals_over_invocations default_latency_highr_buckets
              default_latency_lowr_buckets empty_state st1
              (closure_of ful empty_state) infos st1 eq_refl Hwell)
    as (Hin & Hout & _).
  split; [exact Hin | exact Hout].
Defined.

(** ** The resolver, read backwards *)

(** X16: the label names returned by [_build_label_attribute_names] tell
    the three flags apart: a name is in the list exactly when its flag is
    set, no name occurs twice, the list is empty exactly when no flag is
    set, and two settings that give the same names, or the same attribute
    names, are the same setting. *)
Theorem build_label_attribute_names_injective (h m s h' m' s' : bool) :
  let label_names := fst (_build_label_attribute_names h m s) in
  let info_attribute_names := snd (_build_label_attribute_names h m s) in
  ("handler" ∈ label_names <-> h = true) /\
  ("method" ∈ label_names <-> m = true) /\
  ("status" ∈ label_names <-> s = true) /\
  NoDup label_names /\ NoDup info_attribute_names /\
  (label_names = [] <-> h = false /\ m = false /\ s = false) /\
  (label_names = fst (_build_label_attribute_names h' m' s') ->
   h = h' /\ m = m' /\ s = s') /\
  (info_attribute_names = snd (_build_label_attribute_names h' m' s') ->
   h = h' /\ m = m' /\ s = s').
Proof.
  assert (Hin : forall (x : string) (l : list string),
             x ∈ l <-> In x l) by (intros; apply list_elem_of_In).
  destruct h, m, s; cbv zeta; simpl;
    (split; [rewrite Hin; simpl; intuition congruence|]);
    (split; [rewrite Hin; simpl; intuition congruence|]);
    (split; [rewrite Hin; simpl; intuition congruence|]);
    (split; [repeat constructor; rewrite Hin; simpl; intuition congruence|]);
    (split; [repeat constructor; rewrite Hin; simpl; intuition congruence|]);
    (split; [intuition congruence|]);
    split; destruct h', m', s'; simpl; intros H;
      first [discriminate H | repeat split; reflexivity].
Qed.

(** X17: every attribute name the resolver returns is an attribute of
    [Info]: reading the configured attributes never fails, and gives a
    string per label name, the values of [modified_handler], [method] and
    [modified_status] in the order of the label names. *)
Theorem configured_attributes_exist (h m s : bool) (info : Info) :
  collect_label_values info (snd (_build_label_attribute_names h m s)) =
    Ok (configured_label_values h m s info) /\
  length (configured_label_values h m s info) =
    length (fst (_build_label_attribute_names h m s)) /\
  combine (fst (_build_label_attribute_names h m s))
          (configured_label_values h m s info) =
    (if h then [("handler", OStr (modified_handler info))] else []) ++
    (if m then [("method", OStr (method info))] else []) ++
    (if s then [("status", OStr (modified_status info))] else []).
Proof. destruct h, m, s; repeat split; reflexivity. Qed.

(** ** Closures side by side *)

Lemma closure_effect (c : factory_call) (st0 st1 : state)
    (f : Info -> M unit) (info : Info) :
  run_call c st0 = (st1, Ok f) ->
  exists ws out,
    (forall st, f info st = (recorded_all st ws, out)) /\
    Forall (fun w => target w ∈ call_names c) ws.
Proof.
  intros Hrun.
  destruct c as [n d h m s b|n d h m s|n d h m s|n d h m s|hb lb];
    simpl in *.
  - apply latency_inv in Hrun as (_ & _ & _ & ->).
    exists [latency_write n h m s info], (Ok tt). split.
    + intros st. now rewrite latency_instrumentation_run.
    + repeat constructor.
  - factory_inv Hrun.
    destruct (request_cl info) as [v|] eqn:Hq;
      [destruct (PyInt.parse v) as [k|] eqn:Hk|].
    + exists [{| target := n;
                 labelvalues := configured_label_values h m s info;
                 amount := NInt k |}], (Ok tt).
      split; [|repeat constructor].
      intros st. rewrite request_size_instrumentation_run by reflexivity.
      now rewrite Hq, Hk.
    + exists [], (Raise (ValueError (InvalidLiteral v))).
      split; [|constructor].
      intros st. rewrite request_size_instrumentation_run by reflexivity.
      now rewrite Hq, Hk, recorded_all_nil.
    + exists [], (Ok tt). split; [|constructor].
      intros st. rewrite request_size_instrumentation_run by reflexivity.
      now rewrite Hq, recorded_all_nil.
  - factory_inv Hrun.
    destruct (response info) as [r|] eqn:Hr.
    2:{ exists [], (Raise (AttributeError "headers")). split; [|constructor].
        intros st. rewrite response_size_instrumentation_run by reflexivity.
        now rewrite Hr, recorded_all_nil. }
    destruct (response_cl info) as [v|] eqn:Hs;
      [destruct (PyInt.parse v) as [k|] eqn:Hk|].
    + exists [{| target := n;
                 labelvalues := configured_label_values h m s info;
                 amount := NInt k |}], (Ok tt).
      split; [|repeat constructor].
      intros st. rewrite response_size_instrumentation_run by reflexivity.
      now rewrite Hr, Hs, Hk.
    + exists [], (Raise (ValueError (InvalidLiteral v))).
      split; [|constructor].
      intros st. rewrite response_size_instrumentation_run by reflexivity.
      now rewrite Hr, Hs, Hk, recorded_all_nil.
    + exists [], (Ok tt). split; [|constructor].
      intros st. rewrite response_size_instrumentation_run by reflexivity.
      now rewrite Hr, Hs, recorded_all_nil.
  - factory_inv Hrun.
    destruct (response info) as [r|] eqn:Hr.
    2:{ exists [], (Raise (AttributeError "headers")). split; [|constructor].
        intros st.
        rewrite combined_size_instrumentation_no_response by exact Hr.
        now rewrite recorded_all_nil. }
    destruct (combined_content_length (request_cl info) (response_cl info))
      as [[k|]|e] eqn:Hcl.
    + exists [{| target := n;
                 labelvalues := configured_label_values h m s info;
                 amount := NInt k |}], (Ok tt).
      split; [|repeat constructor].
      intros st.
      rewrite (combined_size_instrumentation_run _ h m s info r) by easy.
      now rewrite Hcl.
    + exists [], (Ok tt). split; [|constructor].
      intros st.
      rewrite (combined_size_instrumentation_run _ h m s info r) by easy.
      now rewrite Hcl, recorded_all_nil.
    + exists [], (Raise e). split; [|constructor].
      intros st.
      rewrite (combined_size_instrumentation_run _ h m s info r) by easy.
      now rewrite Hcl, recorded_all_nil.
  - apply full_inv in Hrun as (_ & _ & _ & _ & ->).
    destruct (int_of_header_or_zero (request_cl info)) as [a|e] eqn:Ha.
    2:{ exists [inc_write total_counter 1], (Raise e). split.
        - intros st. now rewrite full_closure_run, Ha.
        - repeat constructor. }
    destruct (a <? 0) eqn:Hneg.
    { exists [inc_write total_counter 1], (Raise (ValueError NegativeIncrement)).
      split.
      - intros st. now rewrite full_closure_run, Ha, Hneg.
      - repeat constructor. }
    assert (Htwo : Forall (fun w => target w ∈ full_names)
                     [inc_write total_counter 1; inc_write in_size_counter a]).
    { unfold full_names. simpl.
      repeat constructor; rewrite !elem_of_cons; tauto. }
    destruct (response info) as [r|] eqn:Hr.
    2:{ exists [inc_write total_counter 1; inc_write in_size_counter a],
               (Raise (AttributeError "headers")).
        split; [|exact Htwo].
        intros st. rewrite full_closure_run, Ha, Hneg, Hr. cbv zeta.
        flatten_writes. }
    destruct (int_of_header_or_zero (response_cl info)) as [k|e] eqn:Hk.
    2:{ exists [inc_write total_counter 1; inc_write in_size_counter a],
               (Raise e).
        split; [|exact Htwo].
        intros st. rewrite full_closure_run, Ha, Hneg, Hr, Hk. cbv zeta.
        flatten_writes. }
    destruct (k <? 0) eqn:Hkneg.
    { exists [inc_write total_counter 1; inc_write in_size_counter a],
             (Raise (ValueError NegativeIncrement)).
      split; [|exact Htwo].
      intros st. rewrite full_closure_run, Ha, Hneg, Hr, Hk, Hkneg. cbv zeta.
      flatten_writes. }
    exists (full_writes hb lb info a k), (Ok tt). split.
    + intros st. rewrite full_closure_run, Ha, Hneg, Hr, Hk, Hkneg. cbv zeta.
      flatten_writes.
    + unfold full_writes, full_names. simpl.
      repeat constructor; rewrite !elem_of_cons; tauto.
Qed.

Lemma filter_foreign (metric : string) (names : list string)
    (ws : list write) :
  Forall (fun w => target w ∈ names) ws -> metric ∉ names ->
  filter (fun w => target w = metric) ws = [].
Proof.
  intros Hall Hm. induction Hall as [|w ws Hw Hall IH]; [reflexivity|].
  rewrite filter_cons. destruct (decide (target w = metric)) as [Heq|_].
  - exfalso. apply Hm. now rewrite <- Heq.
  - exact IH.
Qed.

(** X18: a closure reads nothing of the state it writes to: the writes an
    invocation makes and its outcome depend on the [Info] alone.  Two
    closures whose factories constructed collectors under different names
    can therefore be invoked in either order: each collector ends with the
    same samples, and each invocation with the same outcome. *)
Theorem closures_commute
    (c1 c2 : factory_call) (sa sa' sb sb' : state) (f1 f2 : Info -> M unit)
    (info1 info2 : Info) (st : state) :
  run_call c1 sa = (sa', Ok f1) ->
  run_call c2 sb = (sb', Ok f2) ->
  (forall n, n ∈ call_names c1 -> n ∉ call_names c2) ->
  (forall st', snd (f1 info1 st') = snd (f1 info1 st)) /\
  (forall st', snd (f2 info2 st') = snd (f2 info2 st)) /\
  (forall metric,
      samples metric (fst (f2 info2 (fst (f1 info1 st)))) =
      samples metric (fst (f1 info1 (fst (f2 info2 st))))) /\
  registry (fst (f2 info2 (fst (f1 info1 st)))) = registry st.
Proof.
  intros H1 H2 Hdisjoint.
  destruct (closure_effect c1 sa sa' f1 info1 H1) as (ws1 & out1 & E1 & T1).
  destruct (closure_effect c2 sb sb' f2 info2 H2) as (ws2 & out2 & E2 & T2).
  split; [intros st'; now rewrite !E1|].
  split; [intros st'; now rewrite !E2|].
  split; [|now rewrite E1, E2].
  intros metric. rewrite E1, E2. cbn [fst]. rewrite E1, E2. cbn [fst].
  rewrite !recorded_all_app, !samples_recorded_all, !filter_app.
  f_equal.
  destruct (decide (metric ∈ call_names c1)) as [Hin|Hout].
  - rewrite (filter_foreign metric (call_names c2) ws2 T2 (Hdisjoint _ Hin)).
    now rewrite app_nil_r.
  - rewrite (filter_foreign metric (call_names c1) ws1 T1 Hout).
    now rewrite app_nil_r.
Qed.

(** The closure of [full] and the closure of [request_size] on one request,
    in both orders. *)
Lemma closures_commute_witness :
  let c1 := CallFull default_latency_highr_buckets
                     default_latency_lowr_buckets in
  let c2 := CallRequestSize default_request_size_name
              "Content bytes of requests." true true true in
  let st1 := state_after (run_call c1) empty_state in
  let st2 := state_after (run_call c2) st1 in
  let f1 := closure_of (run_call c1) empty_state in
  let f2 := closure_of (run_call c2) st1 in
  let info := sample_info (content_length "100") (Some []) in
  samples "http_in_bytes_total" (fst (f2 info (fst (f1 info st2)))) =
    samples "http_in_bytes_total" (fst (f1 info (fst (f2 info st2)))) /\
  samples default_request_size_name (fst (f2 info (fst (f1 info st2)))) =
    samples default_request_size_name (fst (f1 info (fst (f2 info st2)))).
Proof.
  intros c1 c2 st1 st2 f1 f2 info.
  assert (Hall : forall metric,
             samples metric (fst (f2 info (fst (f1 info st2)))) =
             samples metric (fst (f1 info (fst (f2 info st2)))));
    [|split; apply Hall].
  refine (proj1 (proj2 (proj2 (closures_commute c1 c2 empty_state st1 st1 st2
                                 f1 f2 info info st2 eq_refl eq_refl _)))).
  intros n Hn Hn2. simpl in Hn, Hn2.
  apply list_elem_of_singleton in Hn2. subst n.
  unfold full_names in Hn. rewrite !elem_of_cons, elem_of_nil in Hn.
  intuition discriminate.
Defined.

(** ** Wiring several factories *)









